(** * film-fan-finder: preference store and recommendation deriver

    A shallow embedding of the profile context ([ProfileProvider], the
    preference store) and of the catalog service module (the TMDB client
    and the recommendation helpers), with the properties of the
    specification stated over it.

    Conventions.
    - JavaScript numbers that hold identifiers, pages and counts are [Z];
      the model is exact for safe integers (magnitude below 2^53).
    - JavaScript strings are [string]; every character stands for the code
      unit of the same number (0..255).
    - An optional property ([x?: T], value [undefined]) and a nullable one
      ([T | null]) are [option T].
    - A [setProfile(prev => next)] updater is the function from [prev] to
      [next]. *)

From Stdlib Require Import ZArith List String Ascii Bool Lia Arith.
From Stdlib Require Import Decimal DecimalString DecimalZ Sorted Permutation.
From Stdlib Require DecimalPos DecimalFacts.
Import ListNotations.

Local Open Scope string_scope.
Local Open Scope list_scope.
Local Open Scope Z_scope.

(* ------------------------------------------------------------------ *)
(** ** Data model *)

(** Modelled from the spec: the declarations of [@/types] (Genre). The
    fields are the ones the code reads ([g.id], [genre?.name]). *)
Module Genre.
Record t : Type := mk { id : Z; name : string }.
End Genre.

(** Modelled from the spec: the declarations of [@/types] (Movie):
    identifier, title, nullable poster path, and the two genre
    representations, each of which may be missing. *)
Module Movie.
Record t : Type := mk {
  id : Z;
  title : string;
  poster_path : option string;
  genre_ids : option (list Z);
  genres : option (list Genre.t)
}.
End Movie.

(** Modelled from the spec: the declarations of [@/types] (Tag). [source]
    and [type] are string literals in the code (['auto'], ['genre']). *)
Module Tag.
Record t : Type := mk {
  id : string;
  name : string;
  source : string;
  type : string
}.
End Tag.

(** Modelled from the spec: the declarations of [@/types] (Mood). At run
    time a mood is a string; the enumeration is the six literals of the
    [switch] in [getMoodBasedRecommendations]. *)
Definition Mood : Type := string.

(** Modelled from the spec: the declarations of [@/types] (UserProfile);
    the fields are those of [initialProfile]. *)
Record UserProfile : Type := mkProfile {
  likedMovies : list Movie.t;
  dislikedMovies : list Movie.t;
  avoidedMovies : list Movie.t;
  tags : list Tag.t;
  currentMood : option Mood
}.

Definition initialProfile : UserProfile :=
  {| likedMovies := [];
     dislikedMovies := [];
     avoidedMovies := [];
     tags := [];
     currentMood := None |}.

(* ------------------------------------------------------------------ *)
(** ** Preference store ([ProfileProvider]) *)

(** [m => m.id !== movieId] and [m => m.id === movieId]. *)
Definition idIsNot (movieId : Z) (m : Movie.t) : bool :=
  negb (Movie.id m =? movieId).

Definition idIs (movieId : Z) (m : Movie.t) : bool :=
  Movie.id m =? movieId.

Definition addLikedMovie (movie : Movie.t) (prev : UserProfile) : UserProfile :=
  let filteredDisliked := filter (idIsNot (Movie.id movie)) (dislikedMovies prev) in
  let filteredAvoided := filter (idIsNot (Movie.id movie)) (avoidedMovies prev) in
  let isAlreadyLiked := existsb (idIs (Movie.id movie)) (likedMovies prev) in
  if isAlreadyLiked then prev
  else
    {| likedMovies := likedMovies prev ++ [movie];
       dislikedMovies := filteredDisliked;
       avoidedMovies := filteredAvoided;
       tags := tags prev;
       currentMood := currentMood prev |}.

Definition removeLikedMovie (movieId : Z) (prev : UserProfile) : UserProfile :=
  {| likedMovies := filter (idIsNot movieId) (likedMovies prev);
     dislikedMovies := dislikedMovies prev;
     avoidedMovies := avoidedMovies prev;
     tags := tags prev;
     currentMood := currentMood prev |}.

Definition addDislikedMovie (movie : Movie.t) (prev : UserProfile) : UserProfile :=
  let filteredLiked := filter (idIsNot (Movie.id movie)) (likedMovies prev) in
  let filteredAvoided := filter (idIsNot (Movie.id movie)) (avoidedMovies prev) in
  let isAlreadyDisliked := existsb (idIs (Movie.id movie)) (dislikedMovies prev) in
  if isAlreadyDisliked then prev
  else
    {| likedMovies := filteredLiked;
       dislikedMovies := dislikedMovies prev ++ [movie];
       avoidedMovies := filteredAvoided;
       tags := tags prev;
       currentMood := currentMood prev |}.

Definition removeDislikedMovie (movieId : Z) (prev : UserProfile) : UserProfile :=
  {| likedMovies := likedMovies prev;
     dislikedMovies := filter (idIsNot movieId) (dislikedMovies prev);
     avoidedMovies := avoidedMovies prev;
     tags := tags prev;
     currentMood := currentMood prev |}.

Definition addAvoidedMovie (movie : Movie.t) (prev : UserProfile) : UserProfile :=
  let filteredLiked := filter (idIsNot (Movie.id movie)) (likedMovies prev) in
  let filteredDisliked := filter (idIsNot (Movie.id movie)) (dislikedMovies prev) in
  let isAlreadyAvoided := existsb (idIs (Movie.id movie)) (avoidedMovies prev) in
  if isAlreadyAvoided then prev
  else
    {| likedMovies := filteredLiked;
       dislikedMovies := filteredDisliked;
       avoidedMovies := avoidedMovies prev ++ [movie];
       tags := tags prev;
       currentMood := currentMood prev |}.

Definition removeAvoidedMovie (movieId : Z) (prev : UserProfile) : UserProfile :=
  {| likedMovies := likedMovies prev;
     dislikedMovies := dislikedMovies prev;
     avoidedMovies := filter (idIsNot movieId) (avoidedMovies prev);
     tags := tags prev;
     currentMood := currentMood prev |}.

Definition addTag (tag : Tag.t) (prev : UserProfile) : UserProfile :=
  let tagExists := existsb (fun t => String.eqb (Tag.id t) (Tag.id tag)) (tags prev) in
  if tagExists then prev
  else
    {| likedMovies := likedMovies prev;
       dislikedMovies := dislikedMovies prev;
       avoidedMovies := avoidedMovies prev;
       tags := tags prev ++ [tag];
       currentMood := currentMood prev |}.

Definition removeTag (tagId : string) (prev : UserProfile) : UserProfile :=
  {| likedMovies := likedMovies prev;
     dislikedMovies := dislikedMovies prev;
     avoidedMovies := avoidedMovies prev;
     tags := filter (fun t => negb (String.eqb (Tag.id t) tagId)) (tags prev);
     currentMood := currentMood prev |}.

Definition setCurrentMood (mood : Mood) (prev : UserProfile) : UserProfile :=
  {| likedMovies := likedMovies prev;
     dislikedMovies := dislikedMovies prev;
     avoidedMovies := avoidedMovies prev;
     tags := tags prev;
     currentMood := Some mood |}.

Definition clearProfile (_ : UserProfile) : UserProfile := initialProfile.

(** The entry points of [ProfileContextType], as the calls a consumer can
    make; [dispatch] is the state update each one performs and [run]
    applies a sequence of calls from left to right. *)
Inductive Action : Type :=
| AddLikedMovie (movie : Movie.t)
| RemoveLikedMovie (movieId : Z)
| AddDislikedMovie (movie : Movie.t)
| RemoveDislikedMovie (movieId : Z)
| AddAvoidedMovie (movie : Movie.t)
| RemoveAvoidedMovie (movieId : Z)
| AddTag (tag : Tag.t)
| RemoveTag (tagId : string)
| SetCurrentMood (mood : Mood)
| ClearProfile.

Definition dispatch (a : Action) : UserProfile -> UserProfile :=
  match a with
  | AddLikedMovie movie => addLikedMovie movie
  | RemoveLikedMovie movieId => removeLikedMovie movieId
  | AddDislikedMovie movie => addDislikedMovie movie
  | RemoveDislikedMovie movieId => removeDislikedMovie movieId
  | AddAvoidedMovie movie => addAvoidedMovie movie
  | RemoveAvoidedMovie movieId => removeAvoidedMovie movieId
  | AddTag tag => addTag tag
  | RemoveTag tagId => removeTag tagId
  | SetCurrentMood mood => setCurrentMood mood
  | ClearProfile => clearProfile
  end.

Definition run (actions : list Action) (p : UserProfile) : UserProfile :=
  fold_left (fun s a => dispatch a s) actions p.

(** The identifiers held by one of the three movie sets. *)
Definition ids (l : list Movie.t) : list Z := map Movie.id l.

Definition likedIds (p : UserProfile) : list Z := ids (likedMovies p).
Definition dislikedIds (p : UserProfile) : list Z := ids (dislikedMovies p).
Definition avoidedIds (p : UserProfile) : list Z := ids (avoidedMovies p).

(** Mutual exclusivity: no identifier is in two of the three sets. *)
Definition exclusive (p : UserProfile) : Prop :=
  forall i : Z,
    ~ (In i (likedIds p) /\ In i (dislikedIds p)) /\
    ~ (In i (likedIds p) /\ In i (avoidedIds p)) /\
    ~ (In i (dislikedIds p) /\ In i (avoidedIds p)).

(** After [addLikedMovie movie]: the movie is liked, and neither disliked
    nor avoided. *)
Definition likedOnly (movie : Movie.t) (p : UserProfile) : Prop :=
  In (Movie.id movie) (likedIds p) /\
  ~ In (Movie.id movie) (dislikedIds p) /\
  ~ In (Movie.id movie) (avoidedIds p).

(* ------------------------------------------------------------------ *)
(** ** JavaScript built-ins used by the catalog service *)

(** A parameter with a default value ([page = 1], [size = 'w500']): the
    default applies when the argument is omitted. *)
Definition withDefault {A : Type} (d : A) (arg : option A) : A :=
  match arg with
  | Some a => a
  | None => d
  end.

(** The numbers [parseInt] produces: an integer or [NaN]. *)
Inductive number : Type :=
| NaN
| Int (z : Z).

Definition isNaN (n : number) : bool :=
  match n with
  | NaN => true
  | Int _ => false
  end.

(** [Number::toString] on an integer: decimal digits, a leading [-] for a
    negative one. This is what JavaScript prints for the safe integers
    (see [isSafeInteger]); from 1e21 on it prints an exponent instead. *)
Definition intToString (z : Z) : string :=
  DecimalString.NilZero.string_of_int (Z.to_int z).

Definition numberToString (n : number) : string :=
  match n with
  | NaN => "NaN"
  | Int z => intToString z
  end.

(** [Array.prototype.join]. *)
Fixpoint join (sep : string) (l : list string) : string :=
  match l with
  | [] => ""
  | [x] => x
  | x :: rest => String.append x (String.append sep (join sep rest))
  end.

Fixpoint dropChars (n : nat) (s : string) : string :=
  match n, s with
  | O, _ => s
  | S n', String _ s' => dropChars n' s'
  | S _, EmptyString => EmptyString
  end.

(** [String.prototype.replace] with a string pattern: the first occurrence
    of [pat] is replaced, the rest of the string is kept. *)
Fixpoint replace (pat rep s : string) : string :=
  if String.prefix pat s then String.append rep (dropChars (String.length pat) s)
  else
    match s with
    | EmptyString => EmptyString
    | String c s' => String c (replace pat rep s')
    end.

(** White space and line terminators among the code units 0..255: TAB, LF,
    VT, FF, CR, SP and NBSP. *)
Definition isWhiteSpace (c : ascii) : bool :=
  let n := nat_of_ascii c in
  ((9 <=? n) && (n <=? 13))%nat || (n =? 32)%nat || (n =? 160)%nat.

Fixpoint trimStart (s : string) : string :=
  match s with
  | String c s' => if isWhiteSpace c then trimStart s' else s
  | EmptyString => EmptyString
  end.

(** The value of a digit of [parseInt]: [0-9], then [a-z] or [A-Z] from 10. *)
Definition digitValue (c : ascii) : option Z :=
  let n := nat_of_ascii c in
  if ((48 <=? n) && (n <=? 57))%nat then Some (Z.of_nat (n - 48))
  else if ((97 <=? n) && (n <=? 122))%nat then Some (Z.of_nat (n - 87))
  else if ((65 <=? n) && (n <=? 90))%nat then Some (Z.of_nat (n - 55))
  else None.

(** The digits of radix [R] at the start of [s], most significant first. *)
Fixpoint leadingDigits (R : Z) (s : string) : list Z :=
  match s with
  | EmptyString => []
  | String c s' =>
      match digitValue c with
      | Some d => if d <? R then d :: leadingDigits R s' else []
      | None => []
      end
  end.

Definition mathInt (R : Z) (digits : list Z) : Z :=
  fold_left (fun acc d => acc * R + d) digits 0.

(** [parseInt(string)] with no radix argument: leading white space is
    skipped, one sign is read, a [0x] or [0X] prefix selects radix 16, and
    the longest run of digits is converted; no digit at all gives [NaN].
    A negative zero is the integer 0, as it prints. The value is exact;
    JavaScript rounds it when it is not a safe integer. *)
Definition parseInt (input : string) : number :=
  let S0 := trimStart input in
  let '(sign, S1) :=
    match S0 with
    | String "-" rest => (-1, rest)
    | String "+" rest => (1, rest)
    | _ => (1, S0)
    end in
  let '(R, S2) :=
    match S1 with
    | String "0" (String "x" rest) => (16, rest)
    | String "0" (String "X" rest) => (16, rest)
    | _ => (10, S1)
    end in
  match leadingDigits R S2 with
  | [] => NaN
  | digits => Int (sign * mathInt R digits)
  end.

(** [Array.prototype.includes] on numbers. *)
Definition includes (l : list Z) (x : Z) : bool :=
  existsb (Z.eqb x) l.

(** A [Map<number, number>]: the entries in insertion order. [mapSet] on a
    key already present keeps the key's place. *)
Definition NumMap : Type := list (Z * Z).

Definition mapGet (k : Z) (m : NumMap) : option Z :=
  option_map snd (find (fun e => fst e =? k) m).

Fixpoint mapSet (k v : Z) (m : NumMap) : NumMap :=
  match m with
  | [] => [(k, v)]
  | (k', v') :: m' =>
      if k' =? k then (k, v) :: m' else (k', v') :: mapSet k v m'
  end.

(** [Array.prototype.sort(comparefn)]: a stable sort; [a] goes before [b]
    when [comparefn(a, b) < 0], and elements that compare equal keep their
    order. Written as an insertion sort from the right. *)
Fixpoint insertSorted {A : Type} (comparefn : A -> A -> Z) (x : A) (l : list A) : list A :=
  match l with
  | [] => [x]
  | y :: l' =>
      if comparefn x y <=? 0 then x :: y :: l'
      else y :: insertSorted comparefn x l'
  end.

Definition sort {A : Type} (comparefn : A -> A -> Z) (l : list A) : list A :=
  fold_right (insertSorted comparefn) [] l.

(* ------------------------------------------------------------------ *)
(** ** The catalog client ([api]) *)

(** The query parameters of [GET /discover/movie]. [with_genres] is absent
    when the code does not set it. *)
Record DiscoverParams : Type := mkDiscover {
  with_genres : option string;
  sort_by : string;
  page : Z
}.

Inductive Request : Type :=
| GetMoviePopular (page : Z)
| GetGenreMovieList
| GetDiscoverMovie (params : DiscoverParams).

(** What the remote service answers: a body of the documented shape (the
    list under [results] or [genres]), or [None] for a request that fails
    (the awaited [api.get] throws). A body of another shape, such as one
    without its [genres] field, for which [getGenres] would return
    [undefined], is not modelled. *)
Record Catalog : Type := mkCatalog {
  moviePopular : Z -> option (list Movie.t);
  genreMovieList : option (list Genre.t);
  discoverMovie : DiscoverParams -> option (list Movie.t)
}.

(** A computation against the catalog: the requests it issued, in order,
    and its value, or [None] when an exception escapes. *)
Definition Api (A : Type) : Type := Catalog -> list Request * option A.

Definition ret {A : Type} (a : A) : Api A :=
  fun _ => ([], Some a).

Definition bind {A B : Type} (m : Api A) (k : A -> Api B) : Api B :=
  fun c =>
    match m c with
    | (log, Some a) => let '(log', r) := k a c in (log ++ log', r)
    | (log, None) => (log, None)
    end.

(** [try { body } catch (error) { handler }]. *)
Definition tryCatch {A : Type} (body handler : Api A) : Api A :=
  fun c =>
    match body c with
    | (log, Some a) => (log, Some a)
    | (log, None) => let '(log', r) := handler c in (log ++ log', r)
    end.

Notation "x <- m ;; k" := (bind m (fun x => k))
  (at level 61, m at next level, right associativity).

Definition apiGetMoviePopular (page : Z) : Api (list Movie.t) :=
  fun c => ([GetMoviePopular page], moviePopular c page).

Definition apiGetGenreMovieList : Api (list Genre.t) :=
  fun c => ([GetGenreMovieList], genreMovieList c).

Definition apiGetDiscoverMovie (params : DiscoverParams) : Api (list Movie.t) :=
  fun c => ([GetDiscoverMovie params], discoverMovie c params).

Definition requests {A : Type} (r : list Request * option A) : list Request := fst r.
Definition outcome {A : Type} (r : list Request * option A) : option A := snd r.

Definition getPopularMovies (page : option Z) : Api (list Movie.t) :=
  let page := withDefault 1 page in
  tryCatch
    (response <- apiGetMoviePopular page ;;
     ret response)
    (ret []).

Definition getGenres : Api (list Genre.t) :=
  tryCatch
    (response <- apiGetGenreMovieList ;;
     ret response)
    (ret []).

(** [getMoviePosterUrl]: [!posterPath] holds for [null] and for the empty
    string. *)
Definition getMoviePosterUrl (posterPath : option string) (size : option string) : string :=
  let size := withDefault "w500" size in
  match posterPath with
  | None => "/placeholder.svg"
  | Some "" => "/placeholder.svg"
  | Some path =>
      String.append "https://image.tmdb.org/t/p/" (String.append size path)
  end.

(* ------------------------------------------------------------------ *)
(** ** Tag extraction ([extractTagsFromMovies]) *)

(** [genreMap.get(genreId) || 0]: a missing key and a zero count both read
    as 0. *)
Definition getOrZero (genreId : Z) (genreMap : NumMap) : Z :=
  match mapGet genreId genreMap with
  | Some count => if count =? 0 then 0 else count
  | None => 0
  end.

(** The body of the inner [forEach]. *)
Definition countGenre (genreMap : NumMap) (genreId : Z) : NumMap :=
  let current := getOrZero genreId genreMap in
  mapSet genreId (current + 1) genreMap.

(** The body of [movies.forEach]: [genre_ids] when the movie has it,
    otherwise the ids of [genres] when it has that, otherwise nothing. *)
Definition countMovie (genreMap : NumMap) (movie : Movie.t) : NumMap :=
  match Movie.genre_ids movie with
  | Some genre_ids => fold_left countGenre genre_ids genreMap
  | None =>
      match Movie.genres movie with
      | Some genres => fold_left (fun gm genre => countGenre gm (Genre.id genre)) genres genreMap
      | None => genreMap
      end
  end.

Definition countGenres (movies : list Movie.t) : NumMap :=
  fold_left countMovie movies [].

(** [(a, b) => b[1] - a[1]]. *)
Definition byCountDesc (a b : Z * Z) : Z := snd b - snd a.

Definition genreTagId (genreId : Z) : string :=
  String.append "genre-" (intToString genreId).

(** [genre?.name || 'Unknown Genre']: a genre that is not found and a
    genre with an empty name both get the fallback label. *)
Definition genreTagName (genres : list Genre.t) (genreId : Z) : string :=
  match find (fun g => Genre.id g =? genreId) genres with
  | Some genre =>
      match Genre.name genre with
      | "" => "Unknown Genre"
      | name => name
      end
  | None => "Unknown Genre"
  end.

Definition genreTag (genres : list Genre.t) (entry : Z * Z) : Tag.t :=
  let '(genreId, count) := entry in
  {| Tag.id := genreTagId genreId;
     Tag.name := genreTagName genres genreId;
     Tag.source := "auto";
     Tag.type := "genre" |}.

(** The entries of the genre map in the order of the returned tags. *)
Definition rankedGenres (movies : list Movie.t) : list (Z * Z) :=
  sort byCountDesc (countGenres movies).

Definition extractTagsFromMovies (movies : list Movie.t) : Api (list Tag.t) :=
  genres <- getGenres ;;
  let genreMap := countGenres movies in
  let genreTags := map (genreTag genres) (sort byCountDesc genreMap) in
  ret genreTags.

(* ------------------------------------------------------------------ *)
(** ** Mood-based recommendations ([getMoodBasedRecommendations]) *)

(** The [switch (mood)]: a value that matches no [case] leaves
    [genreIds] empty. *)
Definition moodGenreIds (mood : Mood) : list Z :=
  if String.eqb mood "happy" then [35; 10751]
  else if String.eqb mood "sad" then [18; 10749]
  else if String.eqb mood "excited" then [28; 12; 878]
  else if String.eqb mood "relaxed" then [16; 35; 10751]
  else if String.eqb mood "thoughtful" then [99; 36; 18]
  else if String.eqb mood "tense" then [27; 53; 9648]
  else [].

Definition getMoodBasedRecommendations (mood : Mood) (page : option Z) : Api (list Movie.t) :=
  let page := withDefault 1 page in
  tryCatch
    (let genreIds := moodGenreIds mood in
     let genreParam := join "," (map intToString genreIds) in
     response <- apiGetDiscoverMovie
                   {| with_genres := Some genreParam;
                      sort_by := "popularity.desc";
                      page := page |} ;;
     ret response)
    (ret []).

(* ------------------------------------------------------------------ *)
(** ** Tag-based recommendations ([getTagBasedRecommendations]) *)

(** The three steps of the genre-id extraction: keep the tags of type
    ['genre'], parse each id with ['genre-'] removed, drop the [NaN]s. *)
Definition extractGenreIds (tags : list Tag.t) : list number :=
  filter (fun id => negb (isNaN id))
    (map (fun tag => parseInt (replace "genre-" "" (Tag.id tag)))
       (filter (fun tag => String.eqb (Tag.type tag) "genre") tags)).

Definition notExcluded (dislikedMovieIds avoidedMovieIds : list Z) (movie : Movie.t) : bool :=
  negb (includes dislikedMovieIds (Movie.id movie)) &&
  negb (includes avoidedMovieIds (Movie.id movie)).

Definition getTagBasedRecommendations
    (tags : list Tag.t) (likedMovieIds dislikedMovieIds : list Z)
    (avoidedMovieIds : option (list Z)) (page : option Z) : Api (list Movie.t) :=
  let avoidedMovieIds := withDefault [] avoidedMovieIds in
  let page := withDefault 1 page in
  tryCatch
    (let genreIds := extractGenreIds tags in
     if (List.length genreIds =? 0)%nat && (List.length likedMovieIds =? 0)%nat then
       getPopularMovies (Some page)
     else
       let params :=
         {| with_genres :=
              if (0 <? List.length genreIds)%nat
              then Some (join "," (map numberToString genreIds))
              else None;
            sort_by := "popularity.desc";
            page := page |} in
       response <- apiGetDiscoverMovie params ;;
       let results := response in
       let results :=
         if (0 <? List.length dislikedMovieIds)%nat || (0 <? List.length avoidedMovieIds)%nat
         then filter (notExcluded dislikedMovieIds avoidedMovieIds) results
         else results in
       ret results)
    (ret []).

(* ------------------------------------------------------------------ *)
(** ** Persistence: [JSON.stringify] and [JSON.parse]

    The profile is written to [localStorage] as [JSON.stringify(profile)]
    and read back with [JSON.parse]. The two built-ins are modelled on
    the values a profile is made of: [undefined], [null], booleans,
    integers, strings, arrays and objects (the own properties in
    insertion order). *)

#[warnings="-register-all"]
Inductive value : Type :=
| Undefined
| Null
| Bool (b : bool)
| Num (z : Z)
| Str (s : string)
| Arr (elements : list value)
| Obj (properties : list (string * value)).

Definition isUndefined (v : value) : bool :=
  match v with
  | Undefined => true
  | _ => false
  end.

Local Infix "+++" := String.append (at level 60, right associativity).

Definition dquote : ascii := "034"%char.
Definition backslash : ascii := "092"%char.

(** A lower-case hexadecimal digit, as [JSON.stringify] writes it. *)
Definition hexDigit (n : nat) : ascii :=
  if (n <? 10)%nat then ascii_of_nat (48 + n) else ascii_of_nat (87 + n).

Definition hexValue (c : ascii) : option nat :=
  let n := nat_of_ascii c in
  if ((48 <=? n) && (n <=? 57))%nat then Some (n - 48)%nat
  else if ((97 <=? n) && (n <=? 102))%nat then Some (n - 87)%nat
  else if ((65 <=? n) && (n <=? 70))%nat then Some (n - 55)%nat
  else None.

(** [QuoteJSONString], one code unit: the two-character escapes, a
    [\u00xx] escape for the other control characters, the character itself
    otherwise. *)
Definition quoteChar (c : ascii) : string :=
  let n := nat_of_ascii c in
  if (n =? 8)%nat then String backslash "b"
  else if (n =? 9)%nat then String backslash "t"
  else if (n =? 10)%nat then String backslash "n"
  else if (n =? 12)%nat then String backslash "f"
  else if (n =? 13)%nat then String backslash "r"
  else if (n =? 34)%nat then String backslash (String dquote "")
  else if (n =? 92)%nat then String backslash (String backslash "")
  else if (n <? 32)%nat then
    String backslash
      (String "u" (String "0" (String "0"
         (String (hexDigit (n / 16)) (String (hexDigit (n mod 16)) "")))))
  else String c "".

Fixpoint quoteChars (s : string) : string :=
  match s with
  | EmptyString => ""
  | String c s' => quoteChar c +++ quoteChars s'
  end.

Definition quoteJSONString (s : string) : string :=
  String dquote (quoteChars s +++ String dquote "").

(** [SerializeJSONProperty]: [None] is the result [undefined]. An array
    element that serializes to [undefined] is written [null]; an object
    member that does is left out. *)
Fixpoint serialize (v : value) : option string :=
  match v with
  | Undefined => None
  | Null => Some "null"
  | Bool true => Some "true"
  | Bool false => Some "false"
  | Num z => Some (intToString z)
  | Str s => Some (quoteJSONString s)
  | Arr elements =>
      Some ("[" +++
            join ","
              (map (fun e => match serialize e with
                             | Some t => t
                             | None => "null"
                             end) elements) +++ "]")
  | Obj properties =>
      Some ("{" +++
            join ","
              (flat_map (fun kv => match serialize (snd kv) with
                                   | Some t => [quoteJSONString (fst kv) +++ ":" +++ t]
                                   | None => []
                                   end) properties) +++ "}")
  end.

(** [JSON.stringify(value)]. *)
Definition stringify (v : value) : option string := serialize v.

(** White space of the JSON grammar: TAB, LF, CR, SP. *)
Definition isJsonWs (c : ascii) : bool :=
  let n := nat_of_ascii c in
  (n =? 9)%nat || (n =? 10)%nat || (n =? 13)%nat || (n =? 32)%nat.

Fixpoint skipWs (s : string) : string :=
  match s with
  | String c s' => if isJsonWs c then skipWs s' else s
  | EmptyString => EmptyString
  end.

(** The rest of [s] after the character [c], when [s] starts with it. *)
Definition startsWith (c : ascii) (s : string) : option string :=
  match s with
  | String d rest => if Ascii.eqb d c then Some rest else None
  | EmptyString => None
  end.

(** The rest of [s] after the literal [lit]. *)
Fixpoint expect (lit s : string) : option string :=
  match lit with
  | EmptyString => Some s
  | String c lit' =>
      match s with
      | String d s' => if Ascii.eqb d c then expect lit' s' else None
      | EmptyString => None
      end
  end.

Definition unescape (e : ascii) : option ascii :=
  if Ascii.eqb e dquote then Some dquote
  else if Ascii.eqb e backslash then Some backslash
  else if Ascii.eqb e "/" then Some "/"%char
  else if Ascii.eqb e "b" then Some (ascii_of_nat 8)
  else if Ascii.eqb e "f" then Some (ascii_of_nat 12)
  else if Ascii.eqb e "n" then Some (ascii_of_nat 10)
  else if Ascii.eqb e "r" then Some (ascii_of_nat 13)
  else if Ascii.eqb e "t" then Some (ascii_of_nat 9)
  else None.

(** The code unit of a [\uXXXX] escape; one above 255 has no character in
    this model. *)
Definition unicodeEscape (h1 h2 h3 h4 : ascii) : option ascii :=
  match hexValue h1, hexValue h2, hexValue h3, hexValue h4 with
  | Some a, Some b, Some c, Some d =>
      if ((a =? 0) && (b =? 0))%nat then Some (ascii_of_nat (16 * c + d)) else None
  | _, _, _, _ => None
  end.

(** A JSON string after its opening quote: the characters up to the
    closing quote, escapes decoded, and the text after the closing quote.
    A raw control character is a syntax error. *)
Fixpoint parseChars (s : string) : option (string * string) :=
  match s with
  | EmptyString => None
  | String c rest =>
      if Ascii.eqb c dquote then Some ("", rest)
      else if Ascii.eqb c backslash then
        match rest with
        | String e rest1 =>
            if Ascii.eqb e "u" then
              match rest1 with
              | String h1 (String h2 (String h3 (String h4 rest2))) =>
                  match unicodeEscape h1 h2 h3 h4, parseChars rest2 with
                  | Some d, Some (str, r) => Some (String d str, r)
                  | _, _ => None
                  end
              | _ => None
              end
            else
              match unescape e, parseChars rest1 with
              | Some d, Some (str, r) => Some (String d str, r)
              | _, _ => None
              end
        | EmptyString => None
        end
      else if (nat_of_ascii c <? 32)%nat then None
      else
        match parseChars rest with
        | Some (str, r) => Some (String c str, r)
        | None => None
        end
  end.

Definition isDigit (c : ascii) : bool :=
  let n := nat_of_ascii c in ((48 <=? n) && (n <=? 57))%nat.

(** The digits at the start of [s], and what follows them. *)
Fixpoint spanDigits (s : string) : string * string :=
  match s with
  | String c s' =>
      if isDigit c then let '(ds, rest) := spanDigits s' in (String c ds, rest)
      else ("", s)
  | EmptyString => ("", "")
  end.

(** A JSON number that is an integer: an optional minus sign, then [0] or
    digits that do not start with [0]. A fraction or an exponent is outside
    this model. *)
Definition parseNumber (s : string) : option (Z * string) :=
  let '(negative, s1) :=
    match startsWith "-" s with
    | Some rest => (true, rest)
    | None => (false, s)
    end in
  let '(ds, rest) := spanDigits s1 in
  match ds with
  | EmptyString => None
  | String d ds' =>
      if Ascii.eqb d "0" && negb (String.eqb ds' "") then None
      else
        match startsWith "." rest, startsWith "e" rest, startsWith "E" rest with
        | None, None, None =>
            match NilEmpty.uint_of_string ds with
            | Some u =>
                let n := Z.of_uint u in
                Some (if negative then - n else n, rest)
            | None => None
            end
        | _, _, _ => None
        end
  end.

(** [CreateDataProperty]: a key already present keeps its place and takes
    the new value. *)
Fixpoint objSet (k : string) (v : value) (ps : list (string * value)) : list (string * value) :=
  match ps with
  | [] => [(k, v)]
  | (k', v') :: ps' =>
      if String.eqb k' k then (k, v) :: ps' else (k', v') :: objSet k v ps'
  end.

Definition objOfMembers (members : list (string * value)) : list (string * value) :=
  fold_left (fun o kv => objSet (fst kv) (snd kv) o) members [].

(** The JSON grammar, by recursive descent; [fuel] bounds the number of
    nested calls. Each function answers the value read and the text left. *)
Fixpoint parseValue (fuel : nat) (s : string) : option (value * string) :=
  match fuel with
  | O => None
  | S fuel =>
      match skipWs s with
      | EmptyString => None
      | String c rest =>
          if isDigit c || Ascii.eqb c "-" then
            match parseNumber (String c rest) with
            | Some (z, r) => Some (Num z, r)
            | None => None
            end
          else if Ascii.eqb c "n" then
            match expect "ull" rest with Some r => Some (Null, r) | None => None end
          else if Ascii.eqb c "t" then
            match expect "rue" rest with Some r => Some (Bool true, r) | None => None end
          else if Ascii.eqb c "f" then
            match expect "alse" rest with Some r => Some (Bool false, r) | None => None end
          else if Ascii.eqb c dquote then
            match parseChars rest with
            | Some (str, r) => Some (Str str, r)
            | None => None
            end
          else if Ascii.eqb c "[" then
            match startsWith "]" (skipWs rest) with
            | Some r => Some (Arr [], r)
            | None =>
                match parseElements fuel rest with
                | Some (l, r) => Some (Arr l, r)
                | None => None
                end
            end
          else if Ascii.eqb c "{" then
            match startsWith "}" (skipWs rest) with
            | Some r => Some (Obj [], r)
            | None =>
                match parseMembers fuel rest with
                | Some (ps, r) => Some (Obj (objOfMembers ps), r)
                | None => None
                end
            end
          else None
      end
  end
with parseElements (fuel : nat) (s : string) : option (list value * string) :=
  match fuel with
  | O => None
  | S fuel =>
      match parseValue fuel s with
      | Some (v, r) =>
          match startsWith "," (skipWs r) with
          | Some r' =>
              match parseElements fuel r' with
              | Some (l, r'') => Some (v :: l, r'')
              | None => None
              end
          | None =>
              match startsWith "]" (skipWs r) with
              | Some r' => Some ([v], r')
              | None => None
              end
          end
      | None => None
      end
  end
with parseMembers (fuel : nat) (s : string) : option (list (string * value) * string) :=
  match fuel with
  | O => None
  | S fuel =>
      match startsWith dquote (skipWs s) with
      | Some r =>
          match parseChars r with
          | Some (k, r1) =>
              match startsWith ":" (skipWs r1) with
              | Some r2 =>
                  match parseValue fuel r2 with
                  | Some (v, r3) =>
                      match startsWith "," (skipWs r3) with
                      | Some r4 =>
                          match parseMembers fuel r4 with
                          | Some (ps, r5) => Some ((k, v) :: ps, r5)
                          | None => None
                          end
                      | None =>
                          match startsWith "}" (skipWs r3) with
                          | Some r4 => Some ([(k, v)], r4)
                          | None => None
                          end
                      end
                  | None => None
                  end
              | None => None
              end
          | None => None
          end
      | None => None
      end
  end.

(** [JSON.parse(text)]: one value, then nothing but white space. [None]
    is the [SyntaxError] (or a text outside the model). The text itself
    bounds the depth of the descent. *)
Definition parse (text : string) : option value :=
  match parseValue (S (String.length text)) text with
  | Some (v, rest) =>
      match skipWs rest with
      | EmptyString => Some v
      | String _ _ => None
      end
  | None => None
  end.

(** What [JSON.parse(JSON.stringify(v))] is expected to be: [v] with
    every [undefined] array element turned into [null] and every
    [undefined] member left out. *)
Fixpoint strip (v : value) : value :=
  match v with
  | Arr elements =>
      Arr (map (fun e => match e with
                         | Undefined => Null
                         | _ => strip e
                         end) elements)
  | Obj properties =>
      Obj (flat_map (fun kv => if isUndefined (snd kv) then []
                               else [(fst kv, strip (snd kv))]) properties)
  | _ => v
  end.

(** The members [JSON.stringify] writes. *)
Definition written (properties : list (string * value)) : list (string * value) :=
  filter (fun kv => negb (isUndefined (snd kv))) properties.

(** An object has one property per key, at every depth. *)
Fixpoint uniqueKeys (v : value) : Prop :=
  match v with
  | Arr elements => fold_right (fun e acc => uniqueKeys e /\ acc) True elements
  | Obj properties =>
      NoDup (map fst (written properties)) /\
      fold_right (fun kv acc => uniqueKeys (snd kv) /\ acc) True properties
  | _ => True
  end.

(** A number of nested calls that is enough to read back the text of
    [v]. *)
Fixpoint need (v : value) : nat :=
  match v with
  | Arr elements => S (List.length elements + list_sum (map need elements))
  | Obj properties =>
      S (list_sum (map (fun kv => if isUndefined (snd kv) then O
                                  else S (need (snd kv))) properties))
  | _ => 1%nat
  end.

(** A number may be followed by anything but a digit, a fraction or an
    exponent. *)
Definition endsNumber (rest : string) : bool :=
  match rest with
  | EmptyString => true
  | String c _ =>
      negb (isDigit c) && negb (Ascii.eqb c ".") && negb (Ascii.eqb c "e")
      && negb (Ascii.eqb c "E")
  end.

(** The text an array element is written as, and the members an object
    property is written as. *)
Definition elementText (e : value) : string :=
  match serialize e with
  | Some t => t
  | None => "null"
  end.

Definition memberTexts (kv : string * value) : list string :=
  match serialize (snd kv) with
  | Some t => [quoteJSONString (fst kv) +++ ":" +++ t]
  | None => []
  end.

(** [strip] on an array element and on an object property. *)
Definition stripElement (e : value) : value :=
  match e with
  | Undefined => Null
  | _ => strip e
  end.

Definition stripMember (kv : string * value) : list (string * value) :=
  if isUndefined (snd kv) then [] else [(fst kv, strip (snd kv))].

(** The first character of a serialized value: never white space, never
    a closing bracket. *)
Definition opensValue (t : string) : Prop :=
  match t with
  | String c _ => isJsonWs c = false /\ Ascii.eqb c "]" = false
  | EmptyString => False
  end.

(** [v] reads back: its text, followed by anything a number may be
    followed by, parses to [strip v] and leaves what followed. *)
Definition readsBack (v : value) : Prop :=
  forall t, serialize v = Some t -> uniqueKeys v ->
  forall fuel rest, (need v <= fuel)%nat -> endsNumber rest = true ->
  parseValue fuel (t +++ rest) = Some (strip v, rest).

Fixpoint distinct (l : list string) : bool :=
  match l with
  | [] => true
  | k :: l' => negb (existsb (String.eqb k) l') && distinct l'
  end.

(* ------------------------------------------------------------------ *)
(** ** The profile as a JavaScript object, and back

    [profileValue] is the object a [UserProfile] stands for: an optional
    property that is not set is [undefined], a nullable one is [null].
    [JSON.parse(savedProfile)] is used as a [UserProfile] as it is;
    [asProfile] reads from a parsed value the properties a [UserProfile]
    has, and has no answer for a value whose properties are not of the
    declared types. *)

Definition optionalValue {A : Type} (f : A -> value) (o : option A) : value :=
  match o with
  | Some a => f a
  | None => Undefined
  end.

Definition nullableValue {A : Type} (f : A -> value) (o : option A) : value :=
  match o with
  | Some a => f a
  | None => Null
  end.

Definition genreValue (g : Genre.t) : value :=
  Obj [("id", Num (Genre.id g)); ("name", Str (Genre.name g))].

Definition movieValue (m : Movie.t) : value :=
  Obj [("id", Num (Movie.id m));
       ("title", Str (Movie.title m));
       ("poster_path", nullableValue Str (Movie.poster_path m));
       ("genre_ids", optionalValue (fun l => Arr (map Num l)) (Movie.genre_ids m));
       ("genres", optionalValue (fun l => Arr (map genreValue l)) (Movie.genres m))].

Definition tagValue (t : Tag.t) : value :=
  Obj [("id", Str (Tag.id t));
       ("name", Str (Tag.name t));
       ("source", Str (Tag.source t));
       ("type", Str (Tag.type t))].

Definition profileValue (p : UserProfile) : value :=
  Obj [("likedMovies", Arr (map movieValue (likedMovies p)));
       ("dislikedMovies", Arr (map movieValue (dislikedMovies p)));
       ("avoidedMovies", Arr (map movieValue (avoidedMovies p)));
       ("tags", Arr (map tagValue (tags p)));
       ("currentMood", optionalValue Str (currentMood p))].

(** Reading a property: a missing one reads [undefined]. *)
Definition getProp (name : string) (v : value) : value :=
  match v with
  | Obj properties =>
      match find (fun kv => String.eqb (fst kv) name) properties with
      | Some kv => snd kv
      | None => Undefined
      end
  | _ => Undefined
  end.

Definition asNum (v : value) : option Z :=
  match v with
  | Num z => Some z
  | _ => None
  end.

Definition asStr (v : value) : option string :=
  match v with
  | Str s => Some s
  | _ => None
  end.

Fixpoint traverse {A B : Type} (f : A -> option B) (l : list A) : option (list B) :=
  match l with
  | [] => Some []
  | a :: l' =>
      match f a, traverse f l' with
      | Some b, Some bs => Some (b :: bs)
      | _, _ => None
      end
  end.

Definition asArray {A : Type} (f : value -> option A) (v : value) : option (list A) :=
  match v with
  | Arr elements => traverse f elements
  | _ => None
  end.

Definition asOptional {A : Type} (f : value -> option A) (v : value) : option (option A) :=
  match v with
  | Undefined => Some None
  | _ => option_map Some (f v)
  end.

Definition asNullable {A : Type} (f : value -> option A) (v : value) : option (option A) :=
  match v with
  | Null => Some None
  | _ => option_map Some (f v)
  end.

Definition asGenre (v : value) : option Genre.t :=
  match asNum (getProp "id" v), asStr (getProp "name" v) with
  | Some id, Some name => Some {| Genre.id := id; Genre.name := name |}
  | _, _ => None
  end.

Definition asMovie (v : value) : option Movie.t :=
  match asNum (getProp "id" v), asStr (getProp "title" v),
        asNullable asStr (getProp "poster_path" v),
        asOptional (asArray asNum) (getProp "genre_ids" v),
        asOptional (asArray asGenre) (getProp "genres" v) with
  | Some id, Some title, Some poster_path, Some genre_ids, Some genres =>
      Some {| Movie.id := id; Movie.title := title; Movie.poster_path := poster_path;
              Movie.genre_ids := genre_ids; Movie.genres := genres |}
  | _, _, _, _, _ => None
  end.

Definition asTag (v : value) : option Tag.t :=
  match asStr (getProp "id" v), asStr (getProp "name" v),
        asStr (getProp "source" v), asStr (getProp "type" v) with
  | Some id, Some name, Some source, Some type =>
      Some {| Tag.id := id; Tag.name := name; Tag.source := source; Tag.type := type |}
  | _, _, _, _ => None
  end.

Definition asProfile (v : value) : option UserProfile :=
  match asArray asMovie (getProp "likedMovies" v),
        asArray asMovie (getProp "dislikedMovies" v),
        asArray asMovie (getProp "avoidedMovies" v),
        asArray asTag (getProp "tags" v),
        asOptional asStr (getProp "currentMood" v) with
  | Some liked, Some disliked, Some avoided, Some tags, Some mood =>
      Some {| likedMovies := liked; dislikedMovies := disliked; avoidedMovies := avoided;
              tags := tags; currentMood := mood |}
  | _, _, _, _, _ => None
  end.

(** The effect of [useEffect]: what [localStorage.setItem('userProfile',
    JSON.stringify(profile))] stores. *)
Definition saveProfile (profile : UserProfile) : string :=
  match stringify (profileValue profile) with
  | Some text => text
  | None => "undefined"
  end.

(** The initial state: [savedProfile ? JSON.parse(savedProfile) :
    initialProfile], where [savedProfile] is what [localStorage.getItem]
    answers ([null] when nothing is stored); the empty string is falsy.
    [None] is a text that does not parse to a profile. *)
Definition loadProfile (savedProfile : option string) : option UserProfile :=
  match savedProfile with
  | None => Some initialProfile
  | Some EmptyString => Some initialProfile
  | Some text =>
      match parse text with
      | Some v => asProfile v
      | None => None
      end
  end.

(** A valid profile: its numbers are safe integers, the ones
    [JSON.stringify] writes in full and [JSON.parse] reads back exactly. *)
Definition isSafeInteger (z : Z) : bool :=
  (- (2 ^ 53 - 1) <=? z) && (z <=? 2 ^ 53 - 1).

Definition validGenre (g : Genre.t) : bool := isSafeInteger (Genre.id g).

Definition validMovie (m : Movie.t) : bool :=
  isSafeInteger (Movie.id m)
  && match Movie.genre_ids m with Some l => forallb isSafeInteger l | None => true end
  && match Movie.genres m with Some l => forallb validGenre l | None => true end.

Definition validProfile (p : UserProfile) : bool :=
  forallb validMovie (likedMovies p)
  && forallb validMovie (dislikedMovies p)
  && forallb validMovie (avoidedMovies p).

(* ------------------------------------------------------------------ *)
(** ** Vocabulary of the specification *)

(** The list a computation returns; an escaped exception has none. *)
Definition returned {A : Type} (r : list Request * option (list A)) : list A :=
  match outcome r with
  | Some l => l
  | None => []
  end.

(** The fixed enumeration of moods. *)
Definition knownMood (mood : Mood) : Prop :=
  In mood ["happy"; "sad"; "excited"; "relaxed"; "thoughtful"; "tense"].

(** *** The genre-id extraction, described on the text of a tag id

    What [String.prototype.replace] and [parseInt] do to an id, stated on
    its characters and without the functions that model them. *)



















(** No movie of [l] has its id among the disliked or the avoided ids. *)
Definition excludesAll (dislikedMovieIds avoidedMovieIds : list Z) (l : list Movie.t) : Prop :=
  forall m : Movie.t,
    In m l ->
    ~ In (Movie.id m) dislikedMovieIds /\ ~ In (Movie.id m) avoidedMovieIds.

(** The genre ids a movie brings to the count, as [countMovie] reads
    them: [genre_ids] when present, else the ids of [genres], else none. *)
Definition genreIdsOfMovie (movie : Movie.t) : list Z :=
  match Movie.genre_ids movie with
  | Some genre_ids => genre_ids
  | None =>
      match Movie.genres movie with
      | Some genres => map Genre.id genres
      | None => []
      end
  end.

(** All genre ids of the input, in the order they are encountered. *)
Definition genreStream (movies : list Movie.t) : list Z :=
  flat_map genreIdsOfMovie movies.

(** How many times a movie's own genre data lists [g]. *)
Definition listings (g : Z) (movie : Movie.t) : nat :=
  count_occ Z.eq_dec (genreIdsOfMovie movie) g.

(** How many movies list [g] at all. *)
Definition moviesListing (g : Z) (movies : list Movie.t) : nat :=
  List.length (filter (fun movie => includes (genreIdsOfMovie movie) g) movies).

(** The count the genre map holds for [g] (0 when [g] is not a key). *)
Definition genreCount (g : Z) (movies : list Movie.t) : Z :=
  getOrZero g (countGenres movies).

(** C2 in the spec's words: a movie adds at most one to a genre's count,
    so the count of a genre is the number of movies that list it. *)
Definition countsOncePerMovie (movies : list Movie.t) : Prop :=
  forall g : Z, genreCount g movies = Z.of_nat (moviesListing g movies).

(** The position of the first occurrence of [x] in [l] ([length l] when
    there is none). *)
Fixpoint indexOf (x : Z) (l : list Z) : nat :=
  match l with
  | [] => O
  | y :: l' => if y =? x then O else S (indexOf x l')
  end.

(** The order of the tags, read on the input alone: [g] goes before [h]
    when [g] has the higher count, or the same count and an earlier first
    occurrence in the input. *)
Definition occurrences (g : Z) (movies : list Movie.t) : nat :=
  count_occ Z.eq_dec (genreStream movies) g.

Definition ranksBefore (movies : list Movie.t) (g h : Z) : Prop :=
  (occurrences h movies < occurrences g movies)%nat \/
  (occurrences g movies = occurrences h movies /\
   (indexOf g (genreStream movies) < indexOf h (genreStream movies))%nat).

(** The genre ids of the returned tags, in order. *)
Definition rankedGenreIds (movies : list Movie.t) : list Z :=
  map fst (rankedGenres movies).

(** The order of the sorted entries: a higher count first, and for equal
    counts the order [T] the entries had before the sort. *)
Definition lexBefore (T : Z * Z -> Z * Z -> Prop) (a b : Z * Z) : Prop :=
  snd a > snd b \/ (snd a = snd b /\ T a b).

(* ------------------------------------------------------------------ *)
(** ** Sample data

    Concrete movies, profiles and catalogs on which the properties below
    are exercised. *)

Definition movie42 : Movie.t :=
  {| Movie.id := 42; Movie.title := "Stalker";
     Movie.poster_path := Some "/stalker.jpg";
     Movie.genre_ids := Some [18; 878]; Movie.genres := None |}.

Definition movie5 : Movie.t :=
  {| Movie.id := 5; Movie.title := "Four Rooms";
     Movie.poster_path := None;
     Movie.genre_ids := None;
     Movie.genres := Some [{| Genre.id := 35; Genre.name := "Comedy" |}] |}.

Definition movie7 : Movie.t :=
  {| Movie.id := 7; Movie.title := "Heat";
     Movie.poster_path := Some "/heat.jpg";
     Movie.genre_ids := Some [28; 80]; Movie.genres := None |}.

(** A profile in which movie 42 was disliked and is now avoided as well
    (not reachable through the store, which moves it): liking it must take
    it out of both. *)
Definition dislikedAndAvoided42 : UserProfile :=
  {| likedMovies := [movie7];
     dislikedMovies := [movie42];
     avoidedMovies := [movie5; movie42];
     tags := [];
     currentMood := None |}.

(** Two profiles with mutually exclusive sets: one in which movie 42 is
    disliked, one in which it is avoided. *)
Definition disliking42 : UserProfile :=
  {| likedMovies := [movie7];
     dislikedMovies := [movie42];
     avoidedMovies := [movie5];
     tags := [];
     currentMood := None |}.

Definition avoiding42 : UserProfile :=
  {| likedMovies := [movie7];
     dislikedMovies := [];
     avoidedMovies := [movie5; movie42];
     tags := [];
     currentMood := None |}.

Definition tagGenre28 : Tag.t :=
  {| Tag.id := "genre-28"; Tag.name := "Action"; Tag.source := "auto"; Tag.type := "genre" |}.

Definition tagGenreNoise : Tag.t :=
  {| Tag.id := "genre-slow-burn"; Tag.name := "Slow burn"; Tag.source := "manual"; Tag.type := "genre" |}.


Definition tagKeyword : Tag.t :=
  {| Tag.id := "genre-99"; Tag.name := "Documentary"; Tag.source := "manual"; Tag.type := "keyword" |}.



(** A catalog whose popular listing and discover results both contain
    movie 5. *)
Definition catalogWith5 : Catalog :=
  {| moviePopular := fun _ => Some [movie42; movie5; movie7];
     genreMovieList := Some [{| Genre.id := 18; Genre.name := "Drama" |}];
     discoverMovie := fun _ => Some [movie5; movie7] |}.

(** A catalog whose every request fails. *)
Definition catalogDown : Catalog :=
  {| moviePopular := fun _ => None;
     genreMovieList := None;
     discoverMovie := fun _ => None |}.

(** A movie whose genre data lists the genre 18 twice. *)
Definition movieTwice18 : Movie.t :=
  {| Movie.id := 600; Movie.title := "Full Metal Jacket";
     Movie.poster_path := None;
     Movie.genre_ids := Some [18; 10752; 18]; Movie.genres := None |}.

Definition movieOnly7Genre (movieId : Z) : Movie.t :=
  {| Movie.id := movieId; Movie.title := "Untitled";
     Movie.poster_path := None;
     Movie.genre_ids := Some [7]; Movie.genres := None |}.

(** Four movies: three list the genre 7 once, the fourth lists the genre 9
    four times. *)
Definition fourMoviesRepeated9 : list Movie.t :=
  [movieOnly7Genre 1; movieOnly7Genre 2; movieOnly7Genre 3;
   {| Movie.id := 4; Movie.title := "Untitled";
      Movie.poster_path := None;
      Movie.genre_ids := Some [9; 9; 9; 9]; Movie.genres := None |}].

(** Four movies without repetition: 7 is listed by three of them, 9 by
    one, and 9 is met first. *)
Definition fourMovies : list Movie.t :=
  [{| Movie.id := 1; Movie.title := "Untitled";
      Movie.poster_path := None;
      Movie.genre_ids := Some [9; 7]; Movie.genres := None |};
   movieOnly7Genre 2;
   {| Movie.id := 3; Movie.title := "Untitled";
      Movie.poster_path := None;
      Movie.genre_ids := None;
      Movie.genres := Some [{| Genre.id := 7; Genre.name := "Noir" |};
                            {| Genre.id := 11; Genre.name := "Western" |}] |};
   {| Movie.id := 4; Movie.title := "Untitled";
      Movie.poster_path := None;
      Movie.genre_ids := None; Movie.genres := None |}].

(** A populated profile with a mood, and one with no mood set. *)
Definition populatedProfile : UserProfile :=
  {| likedMovies := [movie42; movie7];
     dislikedMovies := [movie5];
     avoidedMovies := [movieTwice18];
     tags := [tagGenre28; tagGenreNoise];
     currentMood := Some "thoughtful" |}.

Definition profileWithoutMood : UserProfile :=
  {| likedMovies := [movie42];
     dislikedMovies := [];
     avoidedMovies := [movie5];
     tags := [tagGenre28];
     currentMood := None |}.

(* ------------------------------------------------------------------ *)
(** ** The other catalog helpers ([searchMovies], [getMovieDetails],
    [getRecommendations])

    The endpoints these three call, with the same reading as [Catalog]: an
    endpoint answers, or the awaited [api.get] throws ([None]). *)

Record Endpoints : Type := mkEndpoints {
  searchMovie : string -> Z -> option (list Movie.t);
  movieById : Z -> option Movie.t;
  movieRecommendations : Z -> option (list Movie.t)
}.

Inductive Call : Type :=
| GetSearchMovie (query : string) (page : Z)
| GetMovie (movieId : Z)
| GetMovieRecommendations (movieId : Z).

Definition Fetch (A : Type) : Type := Endpoints -> list Call * option A.

Definition fetchRet {A : Type} (a : A) : Fetch A :=
  fun _ => ([], Some a).

Definition fetchBind {A B : Type} (m : Fetch A) (k : A -> Fetch B) : Fetch B :=
  fun e =>
    match m e with
    | (log, Some a) => let '(log', r) := k a e in (log ++ log', r)
    | (log, None) => (log, None)
    end.

Definition fetchTryCatch {A : Type} (body handler : Fetch A) : Fetch A :=
  fun e =>
    match body e with
    | (log, Some a) => (log, Some a)
    | (log, None) => let '(log', r) := handler e in (log ++ log', r)
    end.

Definition apiGetSearchMovie (query : string) (page : Z) : Fetch (list Movie.t) :=
  fun e => ([GetSearchMovie query page], searchMovie e query page).

Definition apiGetMovie (movieId : Z) : Fetch Movie.t :=
  fun e => ([GetMovie movieId], movieById e movieId).

Definition apiGetMovieRecommendations (movieId : Z) : Fetch (list Movie.t) :=
  fun e => ([GetMovieRecommendations movieId], movieRecommendations e movieId).

(** [String.prototype.trim]: white space taken off both ends. *)
Fixpoint trimEnd (s : string) : string :=
  match s with
  | EmptyString => EmptyString
  | String c s' =>
      match trimEnd s' with
      | EmptyString => if isWhiteSpace c then EmptyString else String c EmptyString
      | String d t => String c (String d t)
      end
  end.

Definition trim (s : string) : string := trimEnd (trimStart s).

(** [searchMovies]: [!query.trim()] holds when the trimmed query is the
    empty string; the request carries the query as it was given. *)
Definition searchMovies (query : string) (page : option Z) : Fetch (list Movie.t) :=
  let page := withDefault 1 page in
  match trim query with
  | EmptyString => fetchRet []
  | String _ _ =>
      fetchTryCatch
        (fetchBind (apiGetSearchMovie query page) (fun response => fetchRet response))
        (fetchRet [])
  end.

(** [getMovieDetails]: the movie, or [null] when the request fails. *)
Definition getMovieDetails (movieId : Z) : Fetch (option Movie.t) :=
  fetchTryCatch
    (fetchBind (apiGetMovie movieId) (fun response => fetchRet (Some response)))
    (fetchRet None).

Definition getRecommendations (movieId : Z) : Fetch (list Movie.t) :=
  fetchTryCatch
    (fetchBind (apiGetMovieRecommendations movieId) (fun response => fetchRet response))
    (fetchRet []).

(* ------------------------------------------------------------------ *)
(** ** Vocabulary of the further properties *)

Definition dislikedOnly (movie : Movie.t) (p : UserProfile) : Prop :=
  In (Movie.id movie) (dislikedIds p) /\
  ~ In (Movie.id movie) (likedIds p) /\
  ~ In (Movie.id movie) (avoidedIds p).

Definition avoidedOnly (movie : Movie.t) (p : UserProfile) : Prop :=
  In (Movie.id movie) (avoidedIds p) /\
  ~ In (Movie.id movie) (likedIds p) /\
  ~ In (Movie.id movie) (dislikedIds p).

(** No movie id twice in one set; no tag id twice. *)
Definition uniqueMovieIds (p : UserProfile) : Prop :=
  NoDup (likedIds p) /\ NoDup (dislikedIds p) /\ NoDup (avoidedIds p).

Definition tagIds (p : UserProfile) : list string := map Tag.id (tags p).

Definition uniqueTagIds (p : UserProfile) : Prop := NoDup (tagIds p).

(** The movie id a call on the movie sets is about. *)
Definition movieTarget (a : Action) : option Z :=
  match a with
  | AddLikedMovie movie | AddDislikedMovie movie | AddAvoidedMovie movie =>
      Some (Movie.id movie)
  | RemoveLikedMovie movieId | RemoveDislikedMovie movieId
  | RemoveAvoidedMovie movieId => Some movieId
  | _ => None
  end.

(** A query made of white space only (the empty query included). *)
Definition isBlank (query : string) : bool :=
  forallb isWhiteSpace (list_ascii_of_string query).

(** A catalog and endpoints that answer no request. *)
Definition endpointsDown : Endpoints :=
  {| searchMovie := fun _ _ => None;
     movieById := fun _ => None;
     movieRecommendations := fun _ => None |}.

Definition endpointsWithHeat : Endpoints :=
  {| searchMovie := fun _ _ => Some [movie7];
     movieById := fun _ => Some movie7;
     movieRecommendations := fun _ => Some [movie42] |}.

(** A profile that knows nothing of movie 42 or of the tag [genre-28]. *)
Definition profileWithout42 : UserProfile :=
  {| likedMovies := [movie7];
     dislikedMovies := [movie5];
     avoidedMovies := [];
     tags := [tagGenreNoise];
     currentMood := Some "tense" |}.

(** The total of the counts held by a genre map. *)
Definition totalCount (genreMap : NumMap) : Z :=
  fold_right (fun e acc => snd e + acc) 0 genreMap.

(** A computation settles: no exception escapes it, and it has issued at
    most one request. *)
Definition settles {R A : Type} (r : list R * option A) : Prop :=
  snd r <> None /\ (List.length (fst r) <= 1)%nat.

(** The digits of a decimal number, most significant first. *)
Fixpoint digitsOf (d : uint) : list Z :=
  match d with
  | Nil => []
  | D0 d' => 0 :: digitsOf d'
  | D1 d' => 1 :: digitsOf d'
  | D2 d' => 2 :: digitsOf d'
  | D3 d' => 3 :: digitsOf d'
  | D4 d' => 4 :: digitsOf d'
  | D5 d' => 5 :: digitsOf d'
  | D6 d' => 6 :: digitsOf d'
  | D7 d' => 7 :: digitsOf d'
  | D8 d' => 8 :: digitsOf d'
  | D9 d' => 9 :: digitsOf d'
  end.

(* ================================================================== *)
(** * Properties *)

(* ------------------------------------------------------------------ *)
(** ** Preference store *)

Section StoreFacts.

Lemma in_ids_filter (movieId i : Z) (l : list Movie.t) :
  In i (ids (filter (idIsNot movieId) l)) <-> In i (ids l) /\ i <> movieId.
Proof.
  unfold ids. rewrite !in_map_iff. split.
  - intros [m [Hm Hin]]. apply filter_In in Hin as [Hin Hne].
    unfold idIsNot in Hne. apply negb_true_iff, Z.eqb_neq in Hne.
    split; [exists m; auto | congruence].
  - intros [[m [Hm Hin]] Hne]. exists m. split; [assumption|].
    apply filter_In. split; [assumption|].
    unfold idIsNot. apply negb_true_iff, Z.eqb_neq. congruence.
Qed.

Lemma in_ids_snoc (i : Z) (l : list Movie.t) (movie : Movie.t) :
  In i (ids (l ++ [movie])) <-> In i (ids l) \/ i = Movie.id movie.
Proof.
  unfold ids. rewrite map_app, in_app_iff. simpl. intuition.
Qed.

Lemma existsb_idIs (movieId : Z) (l : list Movie.t) :
  existsb (idIs movieId) l = true <-> In movieId (ids l).
Proof.
  unfold ids. rewrite existsb_exists, in_map_iff. unfold idIs.
  split; intros [m H]; exists m; rewrite Z.eqb_eq in *; tauto.
Qed.

Lemma existsb_idIs_false (movieId : Z) (l : list Movie.t) :
  existsb (idIs movieId) l = false <-> ~ In movieId (ids l).
Proof.
  rewrite <- existsb_idIs. destruct (existsb _ _); intuition congruence.
Qed.

Lemma exclusive_initial : exclusive initialProfile.
Proof. intros i. cbn. tauto. Qed.

(** Every entry point keeps the three sets mutually exclusive. *)
Lemma dispatch_exclusive (a : Action) (p : UserProfile) :
  exclusive p -> exclusive (dispatch a p).
Proof.
  intros Hp.
  destruct a as [movie|movieId|movie|movieId|movie|movieId|tag|tagId|mood|]; cbn.
  - unfold addLikedMovie.
    destruct (existsb _ (likedMovies p)) eqn:E; [exact Hp|].
    apply existsb_idIs_false in E.
    intros i. specialize (Hp i). unfold likedIds, dislikedIds, avoidedIds in *. cbn.
    rewrite in_ids_snoc, !in_ids_filter. tauto.
  - intros i. specialize (Hp i). unfold likedIds, dislikedIds, avoidedIds in *. cbn.
    rewrite in_ids_filter. tauto.
  - unfold addDislikedMovie.
    destruct (existsb _ (dislikedMovies p)) eqn:E; [exact Hp|].
    apply existsb_idIs_false in E.
    intros i. specialize (Hp i). unfold likedIds, dislikedIds, avoidedIds in *. cbn.
    rewrite in_ids_snoc, !in_ids_filter. tauto.
  - intros i. specialize (Hp i). unfold likedIds, dislikedIds, avoidedIds in *. cbn.
    rewrite in_ids_filter. tauto.
  - unfold addAvoidedMovie.
    destruct (existsb _ (avoidedMovies p)) eqn:E; [exact Hp|].
    apply existsb_idIs_false in E.
    intros i. specialize (Hp i). unfold likedIds, dislikedIds, avoidedIds in *. cbn.
    rewrite in_ids_snoc, !in_ids_filter. tauto.
  - intros i. specialize (Hp i). unfold likedIds, dislikedIds, avoidedIds in *. cbn.
    rewrite in_ids_filter. tauto.
  - unfold addTag. destruct (existsb _ (tags p)); [exact Hp|]. exact Hp.
  - exact Hp.
  - exact Hp.
  - apply exclusive_initial.
Qed.

Lemma run_exclusive (actions : list Action) (p : UserProfile) :
  exclusive p -> exclusive (run actions p).
Proof.
  revert p. induction actions as [|a actions IH]; intros p Hp; cbn.
  - exact Hp.
  - apply IH, dispatch_exclusive, Hp.
Qed.

End StoreFacts.

(** C3. Starting from the empty profile, after any finite sequence of
    calls to the store (the six add/remove operations on the movie sets,
    and the tag, mood and clear operations as well), no movie identifier is
    in two of the liked, disliked and avoided sets. *)
Theorem exclusive_after_any_sequence (actions : list Action) :
  exclusive (run actions initialProfile).
Proof.
  apply run_exclusive, exclusive_initial.
Qed.

(** The scenario of the specification: on a fresh profile, disliking
    movie 42 and then liking it leaves 42 liked only. *)
Example dislike_then_like :
  run [AddDislikedMovie movie42; AddLikedMovie movie42] initialProfile =
    {| likedMovies := [movie42]; dislikedMovies := []; avoidedMovies := [];
       tags := []; currentMood := None |}.
Proof. reflexivity. Qed.

(** On a profile whose three sets are mutually exclusive, a liked movie is
    neither disliked nor avoided. *)
Lemma exclusive_not_liked_and_other (movie : Movie.t) (p : UserProfile) :
  exclusive p ->
  In (Movie.id movie) (likedIds p) ->
  ~ In (Movie.id movie) (dislikedIds p) /\ ~ In (Movie.id movie) (avoidedIds p).
Proof.
  intros Hp Hl. specialize (Hp (Movie.id movie)). tauto.
Qed.

(** C4. For every movie and every profile state (the three sets of a
    profile state are mutually exclusive), after [addLikedMovie] the
    movie's id is liked and is neither disliked nor avoided, whether or not
    it was disliked or avoided before: a movie that was disliked or avoided
    is not yet liked, so it is taken out of both sets and appended to the
    liked ones, and a movie that is already liked is in neither of the
    other sets. *)
Theorem addLikedMovie_likedOnly (movie : Movie.t) (p : UserProfile) :
  exclusive p ->
  likedOnly movie (addLikedMovie movie p).
Proof.
  intros Hp. unfold likedOnly, addLikedMovie.
  destruct (existsb _ (likedMovies p)) eqn:E.
  - apply existsb_idIs in E. split; [exact E|].
    exact (exclusive_not_liked_and_other movie p Hp E).
  - unfold likedIds, dislikedIds, avoidedIds. cbn.
    rewrite in_ids_snoc, !in_ids_filter. tauto.
Qed.

Lemma addLikedMovie_likedOnly_witness :
  (In 42 (dislikedIds disliking42) /\
   likedOnly movie42 (addLikedMovie movie42 disliking42)) /\
  (In 42 (avoidedIds avoiding42) /\
   likedOnly movie42 (addLikedMovie movie42 avoiding42)) /\
  likedOnly movie7 (addLikedMovie movie7 disliking42).
Proof.
  split; [|split].
  - split; [cbn; tauto|].
    apply (addLikedMovie_likedOnly movie42 disliking42).
    intros i. unfold likedIds, dislikedIds, avoidedIds. cbn. lia.
  - split; [cbn; tauto|].
    apply (addLikedMovie_likedOnly movie42 avoiding42).
    intros i. unfold likedIds, dislikedIds, avoidedIds. cbn. lia.
  - apply (addLikedMovie_likedOnly movie7 disliking42).
    intros i. unfold likedIds, dislikedIds, avoidedIds. cbn. lia.
Defined.

(** C5. [addLikedMovie] applied twice gives the profile it gives applied
    once, on every profile; and on a profile that already lists the movie's
    id as liked it returns the profile unchanged. *)
Theorem addLikedMovie_idempotent (movie : Movie.t) (p : UserProfile) :
  addLikedMovie movie (addLikedMovie movie p) = addLikedMovie movie p /\
  (In (Movie.id movie) (likedIds p) -> addLikedMovie movie p = p).
Proof.
  assert (Hnoop : forall q, In (Movie.id movie) (likedIds q) -> addLikedMovie movie q = q).
  { intros q Hq. apply existsb_idIs in Hq. unfold addLikedMovie. rewrite Hq. reflexivity. }
  split; [|apply Hnoop].
  apply Hnoop. unfold addLikedMovie.
  destruct (existsb _ (likedMovies p)) eqn:E.
  - apply existsb_idIs in E. exact E.
  - unfold likedIds. cbn. rewrite in_ids_snoc. right. reflexivity.
Qed.

Lemma addLikedMovie_idempotent_witness :
  addLikedMovie movie42 (addLikedMovie movie42 dislikedAndAvoided42)
    = addLikedMovie movie42 dislikedAndAvoided42 /\
  addLikedMovie movie7 dislikedAndAvoided42 = dislikedAndAvoided42.
Proof.
  split.
  - exact (proj1 (addLikedMovie_idempotent movie42 dislikedAndAvoided42)).
  - apply (proj2 (addLikedMovie_idempotent movie7 dislikedAndAvoided42)).
    cbn. left. reflexivity.
Defined.

(* ------------------------------------------------------------------ *)
(** ** Poster URL *)

(** C10. [getMoviePosterUrl] answers the local placeholder for a null
    path and for the empty path, whatever the size; for a path that is not
    empty it answers the image base URL, then the size (['w500'] when none
    is given), then the path. *)
Theorem getMoviePosterUrl_spec (size : option string) :
  getMoviePosterUrl None size = "/placeholder.svg" /\
  getMoviePosterUrl (Some "") size = "/placeholder.svg" /\
  (forall path : string,
     path <> "" ->
     getMoviePosterUrl (Some path) size =
       String.append "https://image.tmdb.org/t/p/"
         (String.append (match size with Some sz => sz | None => "w500" end) path)).
Proof.
  split; [reflexivity|]. split; [reflexivity|].
  intros path Hne. destruct path as [|c path]; [contradiction|].
  destruct size; reflexivity.
Qed.

Lemma getMoviePosterUrl_spec_witness :
  getMoviePosterUrl (Some "/stalker.jpg") None
    = "https://image.tmdb.org/t/p/w500/stalker.jpg" /\
  getMoviePosterUrl (Some "/stalker.jpg") (Some "original")
    = "https://image.tmdb.org/t/p/original/stalker.jpg".
Proof.
  split.
  - apply (proj2 (proj2 (getMoviePosterUrl_spec None)) "/stalker.jpg"). discriminate.
  - apply (proj2 (proj2 (getMoviePosterUrl_spec (Some "original"))) "/stalker.jpg").
    discriminate.
Defined.

(* ------------------------------------------------------------------ *)
(** ** Mood-based recommendations *)

Lemma moodGenreIds_unknown (mood : Mood) :
  ~ knownMood mood -> moodGenreIds mood = [].
Proof.
  intros Hm. unfold moodGenreIds.
  repeat match goal with
  | |- context [String.eqb mood ?lit] =>
      destruct (String.eqb_spec mood lit) as [->|_];
      [exfalso; apply Hm; unfold knownMood; cbn; tauto|]
  end.
  reflexivity.
Qed.

(** C8. For a mood outside the enumeration and any page, against any
    catalog, [getMoodBasedRecommendations] issues exactly one request, the
    discover query with an empty genre filter, and no exception escapes: it
    returns the catalog's answer, or the empty list when the request
    fails. *)
Theorem getMoodBasedRecommendations_unknown_mood
    (mood : Mood) (page : option Z) (c : Catalog) :
  ~ knownMood mood ->
  let params :=
    {| with_genres := Some ""; sort_by := "popularity.desc";
       page := match page with Some n => n | None => 1 end |} in
  requests (getMoodBasedRecommendations mood page c) = [GetDiscoverMovie params] /\
  outcome (getMoodBasedRecommendations mood page c) =
    Some (match discoverMovie c params with
          | Some results => results
          | None => []
          end).
Proof.
  intros Hm params.
  unfold getMoodBasedRecommendations, tryCatch, bind, apiGetDiscoverMovie, ret,
    requests, outcome.
  rewrite (moodGenreIds_unknown mood Hm). cbn [map join].
  subst params. destruct page as [n|]; cbn [withDefault];
    destruct (discoverMovie c _); cbn; split; reflexivity.
Qed.

Lemma getMoodBasedRecommendations_unknown_mood_witness :
  requests (getMoodBasedRecommendations "bored" (Some 2) catalogDown) =
    [GetDiscoverMovie {| with_genres := Some ""; sort_by := "popularity.desc"; page := 2 |}] /\
  outcome (getMoodBasedRecommendations "bored" (Some 2) catalogDown) = Some [].
Proof.
  apply (getMoodBasedRecommendations_unknown_mood "bored" (Some 2) catalogDown).
  unfold knownMood. cbn. intuition discriminate.
Defined.

(** A mood of the enumeration, for comparison: ['sad'] asks for the genres
    18 and 10749. *)
Example getMoodBasedRecommendations_sad :
  requests (getMoodBasedRecommendations "sad" None catalogWith5) =
    [GetDiscoverMovie {| with_genres := Some "18,10749"; sort_by := "popularity.desc"; page := 1 |}].
Proof. reflexivity. Qed.

(* ------------------------------------------------------------------ *)
(** ** Tag-based recommendations *)

Lemma replace_genre_prefix (suffix : string) :
  replace "genre-" "" (String.append "genre-" suffix) = suffix.
Proof. destruct suffix; reflexivity. Qed.

Lemma extractGenreIds_cons (tag : Tag.t) (tags : list Tag.t) :
  extractGenreIds (tag :: tags) =
    if String.eqb (Tag.type tag) "genre" then
      match parseInt (replace "genre-" "" (Tag.id tag)) with
      | Int z => Int z :: extractGenreIds tags
      | NaN => extractGenreIds tags
      end
    else extractGenreIds tags.
Proof.
  unfold extractGenreIds. cbn [filter].
  destruct (String.eqb (Tag.type tag) "genre"); [|reflexivity].
  cbn [map filter]. destruct (parseInt _); reflexivity.
Qed.


(** *** [replace] takes out the first occurrence *)






Lemma append_inj_l (a b c : string) : a +++ b = a +++ c -> b = c.
Proof.
  induction a as [|x a IH]; cbn; intros E; [exact E|].
  inversion E. apply IH. assumption.
Qed.



(** *** [parseInt] reads the integer at the start *)


























Lemma includes_In (l : list Z) (x : Z) : includes l x = true <-> In x l.
Proof.
  unfold includes. rewrite existsb_exists. split.
  - intros [y [Hy E]]. apply Z.eqb_eq in E. subst. exact Hy.
  - intros H. exists x. split; [exact H | apply Z.eqb_refl].
Qed.

Lemma notExcluded_spec (d a : list Z) (m : Movie.t) :
  notExcluded d a m = true <-> ~ In (Movie.id m) d /\ ~ In (Movie.id m) a.
Proof.
  unfold notExcluded. rewrite andb_true_iff, !negb_true_iff.
  rewrite <- !includes_In.
  destruct (includes d _), (includes a _); intuition congruence.
Qed.

Section Recommendations.

Variables (tags : list Tag.t) (likedMovieIds dislikedMovieIds : list Z).
Variables (avoidedMovieIds : option (list Z)) (page : option Z) (c : Catalog).

(** No exception escapes [getTagBasedRecommendations]. *)
Lemma getTagBasedRecommendations_total : exists l,
    outcome (getTagBasedRecommendations tags likedMovieIds dislikedMovieIds avoidedMovieIds page c)
      = Some l.
Proof.
  unfold getTagBasedRecommendations, tryCatch, outcome.
  destruct (_ && _).
  - unfold getPopularMovies, tryCatch, bind, apiGetMoviePopular, ret. cbn.
    destruct (moviePopular c _); cbn; eauto.
  - unfold bind, apiGetDiscoverMovie, ret.
    destruct (discoverMovie c _); cbn; eauto.
Qed.

(** The cold-start path: no usable genre id and no liked movie. The
    popular listing is returned as the catalog gave it. *)
Lemma getTagBasedRecommendations_cold_start :
  extractGenreIds tags = [] -> likedMovieIds = [] ->
  requests (getTagBasedRecommendations tags likedMovieIds dislikedMovieIds avoidedMovieIds page c)
    = [GetMoviePopular (withDefault 1 page)] /\
  returned (getTagBasedRecommendations tags likedMovieIds dislikedMovieIds avoidedMovieIds page c) =
    match moviePopular c (withDefault 1 page) with
    | Some results => results
    | None => []
    end.
Proof.
  intros Hg Hl.
  unfold getTagBasedRecommendations, returned, requests, outcome, tryCatch.
  rewrite Hg, Hl. cbn [List.length Nat.eqb andb].
  unfold getPopularMovies, tryCatch, bind, apiGetMoviePopular, ret. cbn [withDefault].
  destruct (moviePopular c _); cbn; split; reflexivity.
Qed.

(** The discover path: the post-filter is applied, so nothing disliked
    or avoided is returned. *)
Lemma getTagBasedRecommendations_discover_excludes :
  extractGenreIds tags <> [] \/ likedMovieIds <> [] ->
  excludesAll dislikedMovieIds (withDefault [] avoidedMovieIds)
    (returned (getTagBasedRecommendations tags likedMovieIds dislikedMovieIds avoidedMovieIds page c)).
Proof.
  intros Hpath.
  unfold getTagBasedRecommendations, returned, outcome, tryCatch.
  assert (E : ((List.length (extractGenreIds tags) =? 0)%nat
               && (List.length likedMovieIds =? 0)%nat) = false).
  { destruct (extractGenreIds tags), likedMovieIds; cbn; try reflexivity.
    destruct Hpath; congruence. }
  rewrite E. unfold bind, apiGetDiscoverMovie, ret.
  destruct (discoverMovie c _) as [results|]; cbn; [|intros m []].
  destruct (_ || _) eqn:F.
  - intros m Hm. apply filter_In in Hm as [_ Hm]. apply notExcluded_spec, Hm.
  - apply orb_false_iff in F as [Fd Fa].
    destruct dislikedMovieIds; [|discriminate Fd].
    destruct (withDefault [] avoidedMovieIds); [|discriminate Fa].
    intros m _. cbn. tauto.
Qed.

End Recommendations.

(** C1, at the failing input: with no tags and no liked movie, disliked
    ids [5] and a popular listing that contains movie 5, the popular listing
    is returned whole, movie 5 included; the claim says the returned list
    holds no disliked movie. *)
Theorem getTagBasedRecommendations_cold_start_returns_disliked :
  returned (getTagBasedRecommendations [] [] [5] (Some []) (Some 1) catalogWith5)
    = [movie42; movie5; movie7] /\
  In movie5 (returned (getTagBasedRecommendations [] [] [5] (Some []) (Some 1) catalogWith5)) /\
  In (Movie.id movie5) [5] /\
  ~ excludesAll [5] []
      (returned (getTagBasedRecommendations [] [] [5] (Some []) (Some 1) catalogWith5)).
Proof.
  split; [reflexivity|]. split; [cbn; tauto|]. split; [cbn; tauto|].
  intros H. destruct (H movie5) as [Hd _]; [cbn; tauto|].
  apply Hd. cbn. tauto.
Qed.

(** The same request with one liked movie takes the discover path, where
    movie 5 is filtered out. *)
Example getTagBasedRecommendations_discover_filters :
  returned (getTagBasedRecommendations [] [7] [5] (Some []) (Some 1) catalogWith5) = [movie7].
Proof. reflexivity. Qed.

(* ------------------------------------------------------------------ *)
(** ** Tag extraction: the genre count *)

Lemma mapGet_mapSet_same (k v : Z) (m : NumMap) :
  mapGet k (mapSet k v m) = Some v.
Proof.
  unfold mapGet. induction m as [|[k' v'] m IH]; cbn.
  - rewrite Z.eqb_refl. reflexivity.
  - destruct (k' =? k) eqn:E; cbn.
    + rewrite Z.eqb_refl. reflexivity.
    + rewrite E. exact IH.
Qed.

Lemma mapGet_mapSet_other (k k' v : Z) (m : NumMap) :
  k <> k' -> mapGet k' (mapSet k v m) = mapGet k' m.
Proof.
  intros Hne. unfold mapGet. induction m as [|[k0 v0] m IH]; cbn.
  - destruct (Z.eqb_spec k k'); [contradiction | reflexivity].
  - destruct (Z.eqb_spec k0 k) as [->|Hk]; cbn.
    + destruct (Z.eqb_spec k k'); [contradiction | reflexivity].
    + destruct (k0 =? k'); [reflexivity | exact IH].
Qed.

Lemma getOrZero_countGenre (g k : Z) (m : NumMap) :
  getOrZero g (countGenre m k) = getOrZero g m + (if Z.eq_dec k g then 1 else 0).
Proof.
  unfold countGenre. destruct (Z.eq_dec k g) as [->|Hne].
  - unfold getOrZero at 1. rewrite mapGet_mapSet_same.
    destruct (_ =? 0) eqn:E; [apply Z.eqb_eq in E; lia | reflexivity].
  - unfold getOrZero at 1. rewrite (mapGet_mapSet_other k g _ m Hne).
    fold (getOrZero g m). lia.
Qed.

Lemma getOrZero_fold_countGenre (g : Z) (l : list Z) (m : NumMap) :
  getOrZero g (fold_left countGenre l m) =
    getOrZero g m + Z.of_nat (count_occ Z.eq_dec l g).
Proof.
  revert m. induction l as [|k l IH]; intros m; cbn [fold_left count_occ].
  - lia.
  - rewrite IH, getOrZero_countGenre. destruct (Z.eq_dec k g); lia.
Qed.

Lemma countMovie_stream (m : NumMap) (movie : Movie.t) :
  countMovie m movie = fold_left countGenre (genreIdsOfMovie movie) m.
Proof.
  unfold countMovie, genreIdsOfMovie.
  destruct (Movie.genre_ids movie); [reflexivity|].
  destruct (Movie.genres movie) as [genres|]; [|reflexivity].
  revert m. induction genres as [|genre genres IH]; intros m; cbn; [reflexivity | apply IH].
Qed.

Lemma fold_countMovie_stream (movies : list Movie.t) (m : NumMap) :
  fold_left countMovie movies m = fold_left countGenre (genreStream movies) m.
Proof.
  revert m. induction movies as [|movie movies IH]; intros m; cbn; [reflexivity|].
  rewrite fold_left_app, IH, countMovie_stream. reflexivity.
Qed.

Lemma countGenres_stream (movies : list Movie.t) :
  countGenres movies = fold_left countGenre (genreStream movies) [].
Proof. apply fold_countMovie_stream. Qed.

Lemma genreCount_occurrences (g : Z) (movies : list Movie.t) :
  genreCount g movies = Z.of_nat (occurrences g movies).
Proof.
  unfold genreCount, occurrences.
  rewrite countGenres_stream, getOrZero_fold_countGenre. reflexivity.
Qed.

Lemma occurrences_sum (g : Z) (movies : list Movie.t) :
  occurrences g movies = list_sum (map (listings g) movies).
Proof.
  unfold occurrences, genreStream, listings.
  induction movies as [|movie movies IH]; cbn; [reflexivity|].
  rewrite count_occ_app, IH. reflexivity.
Qed.

(** C2, as stated, fails: a movie that lists the genre 18 twice adds 2 to
    the count of 18. *)
Lemma countGenres_counts_repeated_genre_twice :
  genreCount 18 [movieTwice18] = 2 /\
  moviesListing 18 [movieTwice18] = 1%nat /\
  ~ countsOncePerMovie [movieTwice18].
Proof.
  split; [reflexivity|]. split; [reflexivity|].
  intros H. specialize (H 18). discriminate H.
Qed.

(** C2 (amended). The genre count goes up by one for every listing: a
    movie adds to the count of a genre the number of times its own genre
    data lists that genre (1 for a genre it lists once, 2 for one it lists
    twice), and the count over an input is the sum of these. *)
Theorem countGenres_counts_every_listing (g : Z) (movies : list Movie.t) :
  (forall (genreMap : NumMap) (movie : Movie.t),
     getOrZero g (countMovie genreMap movie) =
       getOrZero g genreMap + Z.of_nat (listings g movie)) /\
  genreCount g movies = Z.of_nat (list_sum (map (listings g) movies)).
Proof.
  split.
  - intros genreMap movie.
    rewrite countMovie_stream, getOrZero_fold_countGenre. reflexivity.
  - rewrite genreCount_occurrences, occurrences_sum. reflexivity.
Qed.

(* ------------------------------------------------------------------ *)
(** ** Tag extraction: the order of the tags *)

Section SortedLists.

Context {A : Type}.

Lemma StronglySorted_snoc (R : A -> A -> Prop) (l : list A) (x : A) :
  StronglySorted R l -> Forall (fun y => R y x) l -> StronglySorted R (l ++ [x]).
Proof.
  induction 1 as [|y l Hs IH Hy]; intros Hx; cbn.
  - constructor; constructor.
  - inversion Hx; subst. constructor.
    + apply IH. assumption.
    + apply Forall_app. split; [assumption | constructor; [assumption | constructor]].
Qed.

(** A sorted list stays sorted under a relation that agrees with the
    first one on the elements of the list. *)
Lemma StronglySorted_impl_In (R R' : A -> A -> Prop) (l : list A) :
  (forall a b, In a l -> In b l -> R a b -> R' a b) ->
  StronglySorted R l -> StronglySorted R' l.
Proof.
  intros Himp Hs. induction Hs as [|x l Hs IH Hx]; constructor.
  - apply IH. intros a b Ha Hb. apply Himp; right; assumption.
  - rewrite Forall_forall in *. intros b Hb.
    apply Himp; [left; reflexivity | right; assumption | apply Hx, Hb].
Qed.

Lemma StronglySorted_map {B : Type} (f : A -> B) (R : B -> B -> Prop) (l : list A) :
  StronglySorted (fun a b => R (f a) (f b)) l -> StronglySorted R (map f l).
Proof.
  induction 1 as [|x l Hs IH Hx]; cbn; constructor; [exact IH|].
  rewrite Forall_map. exact Hx.
Qed.

Lemma StronglySorted_NoDup (R : A -> A -> Prop) (l : list A) :
  (forall a, ~ R a a) -> StronglySorted R l -> NoDup l.
Proof.
  intros Hirr Hs. induction Hs as [|x l Hs IH Hx]; constructor; [|exact IH].
  intros Hin. rewrite Forall_forall in Hx. exact (Hirr x (Hx x Hin)).
Qed.

End SortedLists.

Section IndexOf.

Lemma indexOf_lt_length (x : Z) (l : list Z) : In x l -> (indexOf x l < List.length l)%nat.
Proof.
  induction l as [|y l IH]; cbn; [contradiction|].
  intros [->|Hin].
  - rewrite Z.eqb_refl. lia.
  - destruct (y =? x); [lia | specialize (IH Hin); lia].
Qed.

Lemma indexOf_absent (x : Z) (l : list Z) : ~ In x l -> indexOf x l = List.length l.
Proof.
  induction l as [|y l IH]; cbn; [reflexivity|].
  intros Hn. destruct (Z.eqb_spec y x) as [->|_]; [exfalso; apply Hn; left; reflexivity|].
  rewrite IH; [reflexivity | intros H; apply Hn; right; exact H].
Qed.

Lemma indexOf_app_In (x : Z) (l l' : list Z) :
  In x l -> indexOf x (l ++ l') = indexOf x l.
Proof.
  induction l as [|y l IH]; cbn; [contradiction|].
  intros [->|Hin].
  - rewrite Z.eqb_refl. reflexivity.
  - destruct (y =? x); [reflexivity | rewrite (IH Hin); reflexivity].
Qed.

Lemma indexOf_app_absent (x : Z) (l l' : list Z) :
  ~ In x l -> indexOf x (l ++ l') = (List.length l + indexOf x l')%nat.
Proof.
  induction l as [|y l IH]; cbn; [reflexivity|].
  intros Hn. destruct (Z.eqb_spec y x) as [->|_]; [exfalso; apply Hn; left; reflexivity|].
  rewrite IH; [reflexivity | intros H; apply Hn; right; exact H].
Qed.

(** In a list sorted by [R], an element comes before every other element
    that is not [R]-before it. *)
Lemma StronglySorted_indexOf (R : Z -> Z -> Prop) (l : list Z) (g h : Z) :
  StronglySorted R l -> In g l -> In h l -> g <> h -> ~ R h g ->
  (indexOf g l < indexOf h l)%nat.
Proof.
  intros Hs. induction Hs as [|x l Hs IH Hx]; cbn; [contradiction|].
  intros Hg Hh Hne Hnr.
  destruct (Z.eqb_spec x g) as [->|Hxg].
  - destruct (Z.eqb_spec g h); [contradiction | lia].
  - destruct Hg as [Hg|Hg]; [contradiction|].
    destruct (Z.eqb_spec x h) as [->|Hxh].
    + rewrite Forall_forall in Hx. exfalso. exact (Hnr (Hx g Hg)).
    + destruct Hh as [Hh|Hh]; [contradiction|].
      specialize (IH Hg Hh Hne Hnr). lia.
Qed.

End IndexOf.

Section StableSort.

(** [T] is the order the entries had before the sort. *)
Variable T : Z * Z -> Z * Z -> Prop.

Lemma insertSorted_perm {A : Type} (cmp : A -> A -> Z) (x : A) (l : list A) :
  Permutation (insertSorted cmp x l) (x :: l).
Proof.
  induction l as [|y l IH]; cbn; [reflexivity|].
  destruct (cmp x y <=? 0); [reflexivity|].
  rewrite IH. apply perm_swap.
Qed.

Lemma sort_perm {A : Type} (cmp : A -> A -> Z) (l : list A) :
  Permutation (sort cmp l) l.
Proof.
  induction l as [|x l IH]; cbn; [reflexivity|].
  rewrite insertSorted_perm, IH. reflexivity.
Qed.

Lemma insertSorted_sorted (x : Z * Z) (s : list (Z * Z)) :
  StronglySorted (lexBefore T) s -> Forall (T x) s ->
  StronglySorted (lexBefore T) (insertSorted byCountDesc x s).
Proof.
  induction 1 as [|y s Hs IH Hy]; intros Hx; cbn.
  - constructor; constructor.
  - inversion Hx as [|? ? Txy Txs]; subst.
    unfold byCountDesc at 1. destruct (Z.leb_spec (snd y - snd x) 0) as [Hle|Hgt].
    + constructor; [constructor; assumption|].
      constructor.
      * unfold lexBefore. destruct (Z.eq_dec (snd x) (snd y)); [right; tauto | left; lia].
      * rewrite Forall_forall in *. intros z Hz.
        specialize (Hy z Hz). specialize (Txs z Hz). unfold lexBefore in *.
        destruct (Z.eq_dec (snd x) (snd z)); [right; tauto | left; lia].
    + constructor; [apply IH; assumption|].
      rewrite (insertSorted_perm byCountDesc x s).
      constructor; [left; lia | assumption].
Qed.

(** The sort is stable: entries with equal counts keep the order [T]
    they came in. *)
Lemma sort_sorted (l : list (Z * Z)) :
  StronglySorted T l -> StronglySorted (lexBefore T) (sort byCountDesc l).
Proof.
  induction 1 as [|x l Hs IH Hx]; cbn; [constructor|].
  apply insertSorted_sorted; [exact IH|].
  rewrite (sort_perm byCountDesc l). exact Hx.
Qed.

End StableSort.

Section GenreMapOrder.

Lemma keys_mapSet_present (k v : Z) (m : NumMap) :
  In k (map fst m) -> map fst (mapSet k v m) = map fst m.
Proof.
  induction m as [|[k' v'] m IH]; cbn; [contradiction|].
  intros Hin. destruct (Z.eqb_spec k' k) as [->|Hne]; cbn; [reflexivity|].
  destruct Hin as [Hin|Hin]; [contradiction|]. rewrite (IH Hin). reflexivity.
Qed.

Lemma keys_mapSet_absent (k v : Z) (m : NumMap) :
  ~ In k (map fst m) -> map fst (mapSet k v m) = map fst m ++ [k].
Proof.
  induction m as [|[k' v'] m IH]; cbn; [reflexivity|].
  intros Hn. destruct (Z.eqb_spec k' k) as [->|Hne]; cbn.
  - exfalso. apply Hn. left. reflexivity.
  - rewrite IH; [reflexivity | intros H; apply Hn; right; exact H].
Qed.

(** The keys of the genre map are the genre ids of the input, each once,
    in the order of their first occurrence. *)
Lemma genreMap_keys (l : list Z) :
  (forall g, In g (map fst (fold_left countGenre l [])) <-> In g l) /\
  StronglySorted (fun g h => (indexOf g l < indexOf h l)%nat)
    (map fst (fold_left countGenre l [])).
Proof.
  induction l as [|x l [IHin IHs]] using rev_ind.
  - cbn. split; [tauto | constructor].
  - rewrite fold_left_app. cbn [fold_left]. unfold countGenre at 1 3.
    set (m := fold_left countGenre l []) in *.
    destruct (in_dec Z.eq_dec x (map fst m)) as [Hin|Hn].
    + rewrite (keys_mapSet_present _ _ _ Hin). split.
      * intros g. rewrite IHin, in_app_iff. cbn. apply IHin in Hin.
        split; [tauto | intros [H|[<-|[]]]; assumption].
      * revert IHs. apply StronglySorted_impl_In.
        intros a b Ha Hb. apply IHin in Ha, Hb.
        rewrite !indexOf_app_In by assumption. tauto.
    + rewrite (keys_mapSet_absent _ _ _ Hn). split.
      * intros g. rewrite !in_app_iff, IHin. reflexivity.
      * apply StronglySorted_snoc.
        -- revert IHs. apply StronglySorted_impl_In.
           intros a b Ha Hb. apply IHin in Ha, Hb.
           rewrite !indexOf_app_In by assumption. tauto.
        -- rewrite Forall_forall. intros g Hg. apply IHin in Hg.
           rewrite (indexOf_app_In g l [x] Hg).
           assert (Hx : ~ In x l) by (intros H; apply Hn, IHin, H).
           rewrite (indexOf_app_absent x l [x] Hx).
           pose proof (indexOf_lt_length g l Hg). lia.
Qed.

Lemma mapGet_In (k v : Z) (m : NumMap) :
  NoDup (map fst m) -> In (k, v) m -> mapGet k m = Some v.
Proof.
  unfold mapGet. induction m as [|[k' v'] m IH]; cbn; [contradiction|].
  intros Hnd Hin. inversion Hnd as [|? ? Hk' Hnd']; subst.
  destruct Hin as [E|Hin].
  - inversion E; subst. rewrite Z.eqb_refl. reflexivity.
  - destruct (Z.eqb_spec k' k) as [->|Hne].
    + exfalso. apply Hk'. apply (in_map fst) in Hin. exact Hin.
    + apply IH; assumption.
Qed.

Variable movies : list Movie.t.

Lemma countGenres_keys_In (g : Z) :
  In g (map fst (countGenres movies)) <-> In g (genreStream movies).
Proof. rewrite countGenres_stream. apply genreMap_keys. Qed.

Lemma countGenres_keys_sorted :
  StronglySorted
    (fun g h => (indexOf g (genreStream movies) < indexOf h (genreStream movies))%nat)
    (map fst (countGenres movies)).
Proof. rewrite countGenres_stream. apply genreMap_keys. Qed.

Lemma countGenres_keys_NoDup : NoDup (map fst (countGenres movies)).
Proof.
  eapply StronglySorted_NoDup; [|apply countGenres_keys_sorted].
  intros a. cbn beta. lia.
Qed.

(** Every entry of the genre map holds the number of listings of its
    genre. *)
Lemma countGenres_entry (e : Z * Z) :
  In e (countGenres movies) -> snd e = Z.of_nat (occurrences (fst e) movies).
Proof.
  destruct e as [k v]. intros Hin. cbn [fst snd].
  rewrite <- genreCount_occurrences. unfold genreCount, getOrZero.
  rewrite (mapGet_In k v _ countGenres_keys_NoDup Hin).
  destruct (Z.eqb_spec v 0); congruence.
Qed.

Lemma rankedGenreIds_In (g : Z) :
  In g (rankedGenreIds movies) <-> In g (genreStream movies).
Proof.
  rewrite <- countGenres_keys_In. unfold rankedGenreIds, rankedGenres.
  split; apply Permutation_in, Permutation_map;
    [|symmetry]; apply sort_perm.
Qed.

Lemma rankedGenreIds_sorted :
  StronglySorted (ranksBefore movies) (rankedGenreIds movies).
Proof.
  unfold rankedGenreIds, rankedGenres. apply StronglySorted_map.
  pose proof countGenres_keys_sorted as Hk.
  set (T := fun a b : Z * Z =>
              (indexOf (fst a) (genreStream movies) < indexOf (fst b) (genreStream movies))%nat).
  assert (Hs : StronglySorted (lexBefore T) (sort byCountDesc (countGenres movies))).
  { apply sort_sorted. clear -Hk. subst T.
    induction (countGenres movies) as [|e m IH]; cbn in *; [constructor|].
    inversion Hk; subst. constructor; [apply IH; assumption|].
    rewrite Forall_map in H2. exact H2. }
  revert Hs. apply StronglySorted_impl_In.
  intros a b Ha Hb Hab.
  apply (Permutation_in _ (sort_perm byCountDesc _)) in Ha, Hb.
  apply countGenres_entry in Ha, Hb.
  unfold lexBefore, ranksBefore in *. subst T. cbn beta in Hab. lia.
Qed.

Lemma rankedGenreIds_higher_count_first (g h : Z) :
  In g (rankedGenreIds movies) -> In h (rankedGenreIds movies) ->
  (occurrences h movies < occurrences g movies)%nat ->
  (indexOf g (rankedGenreIds movies) < indexOf h (rankedGenreIds movies))%nat.
Proof.
  intros Hg Hh Hlt.
  apply (StronglySorted_indexOf (ranksBefore movies)); try assumption.
  - apply rankedGenreIds_sorted.
  - intros ->. lia.
  - unfold ranksBefore. lia.
Qed.

End GenreMapOrder.

(** When no movie lists a genre twice, the count of a genre is the number
    of movies that list it. *)
Lemma occurrences_moviesListing (g : Z) (movies : list Movie.t) :
  (forall movie, In movie movies -> NoDup (genreIdsOfMovie movie)) ->
  occurrences g movies = moviesListing g movies.
Proof.
  rewrite occurrences_sum. unfold moviesListing, list_sum.
  induction movies as [|movie ms IH]; intros Hnd; cbn; [reflexivity|].
  rewrite IH by (intros m Hm; apply Hnd; right; exact Hm).
  assert (Hm : NoDup (genreIdsOfMovie movie)) by (apply Hnd; left; reflexivity).
  unfold listings.
  destruct (includes (genreIdsOfMovie movie) g) eqn:E.
  - apply includes_In in E.
    pose proof (proj1 (NoDup_count_occ Z.eq_dec _) Hm g) as Hle.
    apply (count_occ_In Z.eq_dec) in E. cbn [List.length]. lia.
  - assert (Hn : ~ In g (genreIdsOfMovie movie)).
    { intros H. apply includes_In in H. congruence. }
    apply (count_occ_not_In Z.eq_dec) in Hn. rewrite Hn. reflexivity.
Qed.

Lemma extractTagsFromMovies_returned (movies : list Movie.t) (c : Catalog) :
  returned (extractTagsFromMovies movies c) =
    map (genreTag (match genreMovieList c with Some genres => genres | None => [] end))
      (rankedGenres movies).
Proof.
  unfold extractTagsFromMovies, getGenres, returned, outcome, rankedGenres.
  unfold tryCatch, bind, apiGetGenreMovieList, ret.
  destruct (genreMovieList c); reflexivity.
Qed.

Lemma genreTag_id (genres : list Genre.t) (entries : list (Z * Z)) :
  map Tag.id (map (genreTag genres) entries) = map genreTagId (map fst entries).
Proof.
  rewrite !map_map. apply map_ext. intros [k v]. reflexivity.
Qed.

(** C6, as stated, fails: with three movies that list the genre 7 and one
    movie that lists the genre 9 four times, the tag of 9 (in 1 movie of 4)
    comes before the tag of 7 (in 3 movies of 4). *)
Lemma extractTagsFromMovies_repeated_genre_ranks_first :
  map Tag.id (returned (extractTagsFromMovies fourMoviesRepeated9 catalogWith5))
    = ["genre-9"; "genre-7"] /\
  moviesListing 7 fourMoviesRepeated9 = 3%nat /\
  moviesListing 9 fourMoviesRepeated9 = 1%nat /\
  List.length fourMoviesRepeated9 = 4%nat /\
  ~ (indexOf 7 (rankedGenreIds fourMoviesRepeated9)
     < indexOf 9 (rankedGenreIds fourMoviesRepeated9))%nat.
Proof.
  repeat split; try reflexivity. cbn. lia.
Qed.

(** C6 (amended). The tags come in the order of [rankedGenreIds], which
    holds every genre id of the input once and is sorted by descending
    count, the count of a genre being the number of its listings (as in
    C2), and genres of equal count in the order of their first occurrence
    in the input. A genre with a higher count comes before one with a lower
    count; in particular, when no movie lists a genre twice, a genre listed
    by more movies (3 of 4) comes before one listed by fewer (1 of 4). *)
Theorem extractTagsFromMovies_order (movies : list Movie.t) (c : Catalog) :
  map Tag.id (returned (extractTagsFromMovies movies c))
    = map genreTagId (rankedGenreIds movies) /\
  (forall g : Z, In g (rankedGenreIds movies) <-> In g (genreStream movies)) /\
  StronglySorted (ranksBefore movies) (rankedGenreIds movies) /\
  (forall g h : Z,
     In g (rankedGenreIds movies) -> In h (rankedGenreIds movies) ->
     (occurrences h movies < occurrences g movies)%nat ->
     (indexOf g (rankedGenreIds movies) < indexOf h (rankedGenreIds movies))%nat) /\
  ((forall movie, In movie movies -> NoDup (genreIdsOfMovie movie)) ->
   forall g h : Z,
     In h (rankedGenreIds movies) ->
     (moviesListing h movies < moviesListing g movies)%nat ->
     (indexOf g (rankedGenreIds movies) < indexOf h (rankedGenreIds movies))%nat).
Proof.
  split; [|split; [|split; [|split]]].
  - rewrite extractTagsFromMovies_returned. apply genreTag_id.
  - apply rankedGenreIds_In.
  - apply rankedGenreIds_sorted.
  - apply rankedGenreIds_higher_count_first.
  - intros Hnd g h Hh Hlt.
    rewrite <- !(occurrences_moviesListing _ _ Hnd) in Hlt.
    apply rankedGenreIds_higher_count_first; try assumption.
    apply rankedGenreIds_In. apply (count_occ_In Z.eq_dec).
    fold (occurrences g movies). lia.
Qed.

Lemma extractTagsFromMovies_order_witness :
  map Tag.id (returned (extractTagsFromMovies fourMovies catalogWith5))
    = ["genre-7"; "genre-9"; "genre-11"] /\
  moviesListing 7 fourMovies = 3%nat /\
  moviesListing 9 fourMovies = 1%nat /\
  (indexOf 7 (rankedGenreIds fourMovies) < indexOf 9 (rankedGenreIds fourMovies))%nat.
Proof.
  split; [|split; [reflexivity|split; [reflexivity|]]].
  - rewrite (proj1 (extractTagsFromMovies_order fourMovies catalogWith5)). reflexivity.
  - apply (proj2 (proj2 (proj2 (proj2 (extractTagsFromMovies_order fourMovies catalogWith5))))).
    + intros movie Hm. cbn in Hm.
      repeat (destruct Hm as [<-|Hm]; [cbn; repeat constructor; cbn; intuition discriminate|]).
      contradiction.
    + cbn. tauto.
    + cbn. lia.
Defined.

(* ------------------------------------------------------------------ *)
(** ** Persistence: the round trip through [JSON.stringify] and [JSON.parse] *)

Lemma append_assoc (a b c : string) : (a +++ b) +++ c = a +++ (b +++ c).
Proof. induction a as [|x a IH]; cbn; [reflexivity | rewrite IH; reflexivity]. Qed.

Lemma append_length (a b : string) :
  String.length (a +++ b) = (String.length a + String.length b)%nat.
Proof. induction a as [|x a IH]; cbn; [reflexivity | rewrite IH; reflexivity]. Qed.

(** *** Strings *)

Lemma parseChars_cons (c : ascii) (rest : string) :
  parseChars (String c rest) =
    if Ascii.eqb c dquote then Some ("", rest)
    else if Ascii.eqb c backslash then
      match rest with
      | String e rest1 =>
          if Ascii.eqb e "u" then
            match rest1 with
            | String h1 (String h2 (String h3 (String h4 rest2))) =>
                match unicodeEscape h1 h2 h3 h4, parseChars rest2 with
                | Some d, Some (str, r) => Some (String d str, r)
                | _, _ => None
                end
            | _ => None
            end
          else
            match unescape e, parseChars rest1 with
            | Some d, Some (str, r) => Some (String d str, r)
            | _, _ => None
            end
      | EmptyString => None
      end
    else if (nat_of_ascii c <? 32)%nat then None
    else
      match parseChars rest with
      | Some (str, r) => Some (String c str, r)
      | None => None
      end.
Proof. reflexivity. Qed.

Lemma parseChars_quoteChar (c : ascii) (s rest : string) (str : string) :
  parseChars s = Some (str, rest) ->
  parseChars (quoteChar c +++ s) = Some (String c str, rest).
Proof.
  intros H.
  destruct c as [[] [] [] [] [] [] [] []];
    cbv -[parseChars]; rewrite parseChars_cons; cbv -[parseChars]; rewrite H; reflexivity.
Qed.

Lemma parseChars_quoteChars (s rest : string) :
  parseChars (quoteChars s +++ String dquote rest) = Some (s, rest).
Proof.
  induction s as [|c s IH]; cbn [quoteChars].
  - reflexivity.
  - rewrite append_assoc. apply parseChars_quoteChar, IH.
Qed.

Lemma quoteJSONString_append (s rest : string) :
  quoteJSONString s +++ rest = String dquote (quoteChars s +++ String dquote rest).
Proof.
  unfold quoteJSONString. cbn [String.append]. rewrite append_assoc. reflexivity.
Qed.

(** *** Numbers *)

Lemma spanDigits_uint (d : uint) (rest : string) :
  match rest with
  | String c _ => isDigit c = false
  | EmptyString => True
  end ->
  spanDigits (NilEmpty.string_of_uint d +++ rest) = (NilEmpty.string_of_uint d, rest).
Proof.
  intros Hrest.
  induction d as [|d IH|d IH|d IH|d IH|d IH|d IH|d IH|d IH|d IH|d IH];
    cbn [NilEmpty.string_of_uint String.append];
    try (cbn [spanDigits]; change (isDigit _) with true; cbv iota; rewrite IH; reflexivity).
  destruct rest as [|c rest]; [reflexivity|]. cbn [spanDigits]. rewrite Hrest. reflexivity.
Qed.

Lemma to_uint_no_leading_zero (p : positive) (d : uint) : Pos.to_uint p <> D0 d.
Proof.
  intros E.
  assert (Hn : N.to_uint (Pos.of_uint (Pos.to_uint p)) = Pos.to_uint p).
  { rewrite DecimalPos.Unsigned.of_to. reflexivity. }
  rewrite DecimalPos.Unsigned.to_of, E, DecimalFacts.unorm_D0 in Hn.
  destruct d as [|d|d|d|d|d|d|d|d|d|d];
    [apply (DecimalPos.Unsigned.to_uint_nonzero p); exact E | ..];
    match type of Hn with
    | unorm ?u = _ =>
        pose proof (DecimalFacts.nb_digits_unorm u ltac:(discriminate)) as Hd
    end;
    rewrite Hn in Hd; cbn [nb_digits] in Hd; lia.
Qed.

Lemma endsNumber_spec (rest : string) :
  endsNumber rest = true ->
  match rest with
  | String c _ => isDigit c = false
  | EmptyString => True
  end /\
  startsWith "." rest = None /\ startsWith "e" rest = None /\ startsWith "E" rest = None.
Proof.
  destruct rest as [|c rest]; cbn [endsNumber startsWith]; [tauto|].
  intros H. apply andb_true_iff in H as [H HE]. apply andb_true_iff in H as [H He].
  apply andb_true_iff in H as [Hd Hp].
  apply negb_true_iff in Hd, Hp, He, HE. rewrite Hp, He, HE. tauto.
Qed.

(** The digits of a positive number read back as the number. *)
Lemma parseNumber_digits (p : positive) (rest : string) :
  endsNumber rest = true ->
  parseNumber (NilEmpty.string_of_uint (Pos.to_uint p) +++ rest) = Some (Z.pos p, rest).
Proof.
  intros Hrest. apply endsNumber_spec in Hrest as [Hd [Hp [He HE]]].
  pose proof (DecimalPos.Unsigned.of_to p) as Hof.
  pose proof (to_uint_no_leading_zero p) as Hz.
  pose proof (DecimalPos.Unsigned.to_uint_nonnil p) as Hnil.
  destruct (Pos.to_uint p) as [|d|d|d|d|d|d|d|d|d|d] eqn:E;
    [contradiction | exfalso; apply (Hz d); reflexivity | ..];
    unfold parseNumber; cbn [NilEmpty.string_of_uint String.append startsWith];
    change (Ascii.eqb _ "-") with false; cbv iota;
    cbn [spanDigits]; change (isDigit _) with true; cbv iota;
    rewrite (spanDigits_uint d rest Hd);
    change (Ascii.eqb _ "0") with false; cbn [andb];
    rewrite Hp, He, HE;
    match type of Hof with
    | Pos.of_uint ?u = _ =>
        match goal with
        | |- context [NilEmpty.uint_of_string ?str] =>
            change str with (NilEmpty.string_of_uint u)
        end
    end;
    rewrite NilEmpty.usu; unfold Z.of_uint; rewrite Hof; reflexivity.
Qed.

Lemma parseNumber_intToString (z : Z) (rest : string) :
  endsNumber rest = true ->
  parseNumber (intToString z +++ rest) = Some (z, rest).
Proof.
  intros Hrest. unfold intToString.
  destruct z as [|p|p]; cbn [Z.to_int NilZero.string_of_int].
  - apply endsNumber_spec in Hrest as [Hd [Hp [He HE]]].
    change (NilZero.string_of_uint Decimal.zero +++ rest) with (String "0" rest).
    unfold parseNumber. cbn [startsWith].
    change (Ascii.eqb "0" "-") with false. cbv iota.
    cbn [spanDigits]. change (isDigit "0") with true. cbv iota.
    destruct rest as [|c rest].
    + reflexivity.
    + cbn [spanDigits]. rewrite Hd. cbn [Ascii.eqb String.eqb andb negb].
      change (Ascii.eqb "0" "0" && negb (String.eqb "" "")) with false. cbv iota.
      rewrite Hp, He, HE. reflexivity.
  - assert (E : NilZero.string_of_uint (Pos.to_uint p) = NilEmpty.string_of_uint (Pos.to_uint p)).
    { pose proof (DecimalPos.Unsigned.to_uint_nonnil p).
      destruct (Pos.to_uint p); [contradiction | reflexivity ..]. }
    rewrite E. apply parseNumber_digits, Hrest.
  - assert (E : NilZero.string_of_uint (Pos.to_uint p) = NilEmpty.string_of_uint (Pos.to_uint p)).
    { pose proof (DecimalPos.Unsigned.to_uint_nonnil p).
      destruct (Pos.to_uint p); [contradiction | reflexivity ..]. }
    rewrite E. cbn [String.append].
    pose proof (parseNumber_digits p rest Hrest) as Hpos.
    unfold parseNumber in *. cbn [startsWith]. change (Ascii.eqb "-" "-") with true. cbv iota.
    pose proof (DecimalPos.Unsigned.to_uint_nonnil p) as Hnil.
    pose proof (to_uint_no_leading_zero p) as Hz.
    destruct (Pos.to_uint p) as [|d|d|d|d|d|d|d|d|d|d] eqn:Ep;
      [contradiction | exfalso; apply (Hz d); reflexivity | ..];
      cbn [NilEmpty.string_of_uint String.append startsWith] in Hpos |- *;
      change (Ascii.eqb _ "-") with false in Hpos; cbv iota in Hpos;
      destruct (spanDigits _) as [ds r];
      destruct ds as [|c ds]; try discriminate Hpos;
      destruct (Ascii.eqb c "0" && negb (String.eqb ds "")); try discriminate Hpos;
      destruct (startsWith "." r); try discriminate Hpos;
      destruct (startsWith "e" r); try discriminate Hpos;
      destruct (startsWith "E" r); try discriminate Hpos;
      destruct (NilEmpty.uint_of_string _); try discriminate Hpos;
      inversion Hpos as [[Hv Hr]]; rewrite Hv; reflexivity.
Qed.

Lemma value_nested_ind (P : value -> Prop) :
  P Undefined -> P Null -> (forall b, P (Bool b)) -> (forall z, P (Num z)) ->
  (forall s, P (Str s)) ->
  (forall l, Forall P l -> P (Arr l)) ->
  (forall ps, Forall (fun kv => P (snd kv)) ps -> P (Obj ps)) ->
  forall v, P v.
Proof.
  intros HU HN HB HZ HS HA HO.
  fix IH 1. intros [| |b|z|s|l|ps];
    [exact HU | exact HN | apply HB | apply HZ | apply HS | | ].
  - apply HA. induction l as [|e l IHl]; constructor; [apply IH | exact IHl].
  - apply HO. induction ps as [|[k e] ps IHps]; constructor; [apply IH | exact IHps].
Qed.

Lemma serialize_Arr (l : list value) :
  serialize (Arr l) = Some ("[" +++ join "," (map elementText l) +++ "]").
Proof. reflexivity. Qed.

Lemma serialize_Obj (ps : list (string * value)) :
  serialize (Obj ps) = Some ("{" +++ join "," (flat_map memberTexts ps) +++ "}").
Proof. reflexivity. Qed.

Lemma strip_Arr (l : list value) : strip (Arr l) = Arr (map stripElement l).
Proof. reflexivity. Qed.

Lemma strip_Obj (ps : list (string * value)) : strip (Obj ps) = Obj (flat_map stripMember ps).
Proof. reflexivity. Qed.

Lemma parseValue_S (fuel : nat) (s : string) :
  parseValue (S fuel) s =
    match skipWs s with
    | EmptyString => None
    | String c rest =>
        if isDigit c || Ascii.eqb c "-" then
          match parseNumber (String c rest) with
          | Some (z, r) => Some (Num z, r)
          | None => None
          end
        else if Ascii.eqb c "n" then
          match expect "ull" rest with Some r => Some (Null, r) | None => None end
        else if Ascii.eqb c "t" then
          match expect "rue" rest with Some r => Some (Bool true, r) | None => None end
        else if Ascii.eqb c "f" then
          match expect "alse" rest with Some r => Some (Bool false, r) | None => None end
        else if Ascii.eqb c dquote then
          match parseChars rest with
          | Some (str, r) => Some (Str str, r)
          | None => None
          end
        else if Ascii.eqb c "[" then
          match startsWith "]" (skipWs rest) with
          | Some r => Some (Arr [], r)
          | None =>
              match parseElements fuel rest with
              | Some (l, r) => Some (Arr l, r)
              | None => None
              end
          end
        else if Ascii.eqb c "{" then
          match startsWith "}" (skipWs rest) with
          | Some r => Some (Obj [], r)
          | None =>
              match parseMembers fuel rest with
              | Some (ps, r) => Some (Obj (objOfMembers ps), r)
              | None => None
              end
          end
        else None
    end.
Proof. reflexivity. Qed.

Lemma parseElements_S (fuel : nat) (s : string) :
  parseElements (S fuel) s =
    match parseValue fuel s with
    | Some (v, r) =>
        match startsWith "," (skipWs r) with
        | Some r' =>
            match parseElements fuel r' with
            | Some (l, r'') => Some (v :: l, r'')
            | None => None
            end
        | None =>
            match startsWith "]" (skipWs r) with
            | Some r' => Some ([v], r')
            | None => None
            end
        end
    | None => None
    end.
Proof. reflexivity. Qed.

Lemma parseMembers_S (fuel : nat) (s : string) :
  parseMembers (S fuel) s =
    match startsWith dquote (skipWs s) with
    | Some r =>
        match parseChars r with
        | Some (k, r1) =>
            match startsWith ":" (skipWs r1) with
            | Some r2 =>
                match parseValue fuel r2 with
                | Some (v, r3) =>
                    match startsWith "," (skipWs r3) with
                    | Some r4 =>
                        match parseMembers fuel r4 with
                        | Some (ps, r5) => Some ((k, v) :: ps, r5)
                        | None => None
                        end
                    | None =>
                        match startsWith "}" (skipWs r3) with
                        | Some r4 => Some ([(k, v)], r4)
                        | None => None
                        end
                    end
                | None => None
                end
            | None => None
            end
        | None => None
        end
    | None => None
    end.
Proof. reflexivity. Qed.

Lemma intToString_head (z : Z) :
  exists c t, intToString z = String c t /\
              isJsonWs c = false /\ (isDigit c || Ascii.eqb c "-") = true.
Proof.
  unfold intToString. destruct z as [|p|p]; cbn [Z.to_int NilZero.string_of_int].
  - exists "0"%char, "". repeat split.
  - pose proof (DecimalPos.Unsigned.to_uint_nonnil p) as Hnil.
    destruct (Pos.to_uint p); [contradiction | ..];
      cbn [NilZero.string_of_uint NilEmpty.string_of_uint];
      eexists; eexists; repeat split.
  - eexists; eexists; repeat split.
Qed.

Lemma serialize_opens (v : value) (t : string) : serialize v = Some t -> opensValue t.
Proof.
  destruct v as [| |[|]|z|s|l|ps]; intros H; cbn in H; try discriminate H;
    inversion H; subst; try (cbn; split; reflexivity).
  destruct (intToString_head z) as [c [t [E [Hws Hd]]]]. rewrite E. cbn. split; [exact Hws|].
  destruct (Ascii.eqb_spec c "]") as [->|]; [discriminate Hd | reflexivity].
Qed.

Lemma join_cons_append (x : string) (l : list string) (rest : string) :
  join "," (x :: l) +++ rest =
    x +++ match l with
          | [] => rest
          | _ :: _ => String "," (join "," l +++ rest)
          end.
Proof.
  destruct l as [|y l]; [reflexivity|].
  cbn [join]. rewrite append_assoc. reflexivity.
Qed.

Lemma uniqueKeys_Arr (l : list value) : uniqueKeys (Arr l) <-> Forall uniqueKeys l.
Proof.
  cbn [uniqueKeys]. induction l as [|e l IH]; cbn [fold_right].
  - split; constructor.
  - rewrite IH. split; [intros [H1 H2]; constructor; assumption | intros H; inversion H; tauto].
Qed.

Lemma uniqueKeys_Obj (ps : list (string * value)) :
  uniqueKeys (Obj ps) <->
  NoDup (map fst (written ps)) /\ Forall (fun kv => uniqueKeys (snd kv)) ps.
Proof.
  cbn [uniqueKeys].
  assert (H : fold_right (fun kv acc => uniqueKeys (snd kv) /\ acc) True ps
              <-> Forall (fun kv => uniqueKeys (snd kv)) ps).
  { induction ps as [|kv ps IH]; cbn [fold_right].
    - split; constructor.
    - rewrite IH. split; [intros [H1 H2]; constructor; assumption | intros H; inversion H; tauto]. }
  rewrite H. reflexivity.
Qed.

Lemma parseValue_null (fuel : nat) (rest : string) :
  parseValue (S fuel) ("null" +++ rest) = Some (Null, rest).
Proof. reflexivity. Qed.

Lemma readsBack_element (e : value) (fuel : nat) (rest : string) :
  readsBack e -> uniqueKeys e -> (need e <= fuel)%nat -> endsNumber rest = true ->
  parseValue fuel (elementText e +++ rest) = Some (stripElement e, rest).
Proof.
  intros He Hu Hf Hr. unfold elementText.
  destruct (serialize e) as [t|] eqn:E.
  - rewrite (He t E Hu fuel rest Hf Hr). destruct e; try reflexivity. discriminate E.
  - destruct e; try discriminate E.
    + destruct fuel as [|fuel]; [cbn in Hf; lia|]. apply parseValue_null.
    + destruct b; discriminate E.
Qed.

Lemma skipWs_opens (t rest : string) :
  opensValue t -> skipWs (t +++ rest) = t +++ rest /\ startsWith "]" (t +++ rest) = None.
Proof.
  destruct t as [|c t]; [contradiction|]. intros [Hws Hc].
  cbn [String.append skipWs startsWith]. rewrite Hws, Hc. split; reflexivity.
Qed.

Lemma elementText_opens (e : value) : opensValue (elementText e).
Proof.
  unfold elementText. destruct (serialize e) eqn:E.
  - apply (serialize_opens e). exact E.
  - cbn. split; reflexivity.
Qed.

Lemma next_comma (x : string) : startsWith "," (skipWs (String "," x)) = Some x.
Proof. reflexivity. Qed.

Lemma next_bracket (x : string) :
  startsWith "," (skipWs (String "]" x)) = None /\
  startsWith "]" (skipWs (String "]" x)) = Some x.
Proof. split; reflexivity. Qed.

Lemma next_brace (x : string) :
  startsWith "," (skipWs (String "}" x)) = None /\
  startsWith "}" (skipWs (String "}" x)) = Some x.
Proof. split; reflexivity. Qed.

Lemma next_colon (x : string) : startsWith ":" (skipWs (String ":" x)) = Some x.
Proof. reflexivity. Qed.

Lemma next_quote (x : string) : startsWith dquote (skipWs (String dquote x)) = Some x.
Proof. reflexivity. Qed.

Lemma parseElements_items (l : list value) :
  l <> [] -> Forall readsBack l -> Forall uniqueKeys l ->
  forall fuel rest,
    (List.length l + list_sum (map need l) <= fuel)%nat ->
    parseElements fuel (join "," (map elementText l) +++ String "]" rest)
      = Some (map stripElement l, rest).
Proof.
  induction l as [|e l IH]; [contradiction|].
  intros _ Hrb Hu fuel rest Hf.
  inversion Hrb as [|? ? He Hl]; subst. inversion Hu as [|? ? Hue Hul]; subst.
  cbn [List.length map list_sum fold_right] in Hf.
  destruct fuel as [|fuel]; [lia|].
  rewrite parseElements_S.
  destruct l as [|e2 l].
  - cbn [map join].
    rewrite (readsBack_element e fuel (String "]" rest) He Hue); [|lia|reflexivity].
    rewrite (proj1 (next_bracket rest)), (proj2 (next_bracket rest)). reflexivity.
  - change (map elementText (e :: e2 :: l))
      with (elementText e :: elementText e2 :: map elementText l).
    rewrite join_cons_append. cbv iota.
    change (elementText e2 :: map elementText l) with (map elementText (e2 :: l)).
    rewrite (readsBack_element e fuel _ He Hue); [|lia|reflexivity].
    rewrite next_comma.
    rewrite (IH ltac:(discriminate) Hl Hul fuel rest); [reflexivity|].
    unfold list_sum in *. lia.
Qed.

Lemma serialize_None (v : value) : serialize v = None -> v = Undefined.
Proof. destruct v as [| |[|]| | | |]; intros H; try discriminate H. reflexivity. Qed.

Lemma serialize_Some (v : value) (t : string) : serialize v = Some t -> isUndefined v = false.
Proof. destruct v; intros H; try reflexivity. discriminate H. Qed.

Lemma member_append (k t rest : string) :
  (quoteJSONString k +++ ":" +++ t) +++ rest =
    String dquote (quoteChars k +++ String dquote (String ":" (t +++ rest))).
Proof.
  rewrite append_assoc, quoteJSONString_append.
  change (":" +++ t) with (String ":" t). reflexivity.
Qed.

Lemma memberTexts_cons (k : string) (v : value) (ps : list (string * value)) :
  flat_map memberTexts ((k, v) :: ps) =
    match serialize v with
    | Some t => (quoteJSONString k +++ ":" +++ t) :: flat_map memberTexts ps
    | None => flat_map memberTexts ps
    end.
Proof.
  cbn [flat_map]. unfold memberTexts at 1. cbn [fst snd].
  destruct (serialize v); reflexivity.
Qed.

Lemma stripMember_cons (k : string) (v : value) (ps : list (string * value)) :
  flat_map stripMember ((k, v) :: ps) =
    if isUndefined v then flat_map stripMember ps
    else (k, strip v) :: flat_map stripMember ps.
Proof.
  cbn [flat_map]. unfold stripMember at 1. cbn [fst snd].
  destruct (isUndefined v); reflexivity.
Qed.

Lemma memberTexts_nil (ps : list (string * value)) :
  flat_map memberTexts ps = [] -> flat_map stripMember ps = [].
Proof.
  induction ps as [|[k v] ps IH]; [reflexivity|].
  rewrite memberTexts_cons, stripMember_cons.
  destruct (serialize v) eqn:E; [discriminate|].
  rewrite (serialize_None v E). exact IH.
Qed.

Lemma parseValue_string (fuel : nat) (x : string) :
  parseValue (S fuel) (String dquote x) =
    match parseChars x with
    | Some (str, r) => Some (Str str, r)
    | None => None
    end.
Proof. reflexivity. Qed.

Lemma parseValue_array (fuel : nat) (x : string) :
  parseValue (S fuel) (String "[" x) =
    match startsWith "]" (skipWs x) with
    | Some r => Some (Arr [], r)
    | None =>
        match parseElements fuel x with
        | Some (l, r) => Some (Arr l, r)
        | None => None
        end
    end.
Proof. reflexivity. Qed.

Lemma parseValue_object (fuel : nat) (x : string) :
  parseValue (S fuel) (String "{" x) =
    match startsWith "}" (skipWs x) with
    | Some r => Some (Obj [], r)
    | None =>
        match parseMembers fuel x with
        | Some (ps, r) => Some (Obj (objOfMembers ps), r)
        | None => None
        end
    end.
Proof. reflexivity. Qed.

Lemma parseMembers_members (ps : list (string * value)) :
  flat_map memberTexts ps <> [] ->
  Forall (fun kv => readsBack (snd kv)) ps ->
  Forall (fun kv => uniqueKeys (snd kv)) ps ->
  forall fuel rest,
    (list_sum (map (fun kv => if isUndefined (snd kv) then O else S (need (snd kv))) ps)
       <= fuel)%nat ->
    parseMembers fuel (join "," (flat_map memberTexts ps) +++ String "}" rest)
      = Some (flat_map stripMember ps, rest).
Proof.
  induction ps as [|[k v] ps IH]; [intros H; contradiction|].
  intros Hne Hrb Hu fuel rest Hf.
  inversion Hrb as [|? ? Hv Hps]; subst. inversion Hu as [|? ? Huv Hups]; subst.
  cbn [snd] in Hv, Huv. cbn [map list_sum fold_right snd] in Hf.
  rewrite memberTexts_cons in Hne |- *. rewrite stripMember_cons.
  destruct (serialize v) as [t|] eqn:E.
  - rewrite (serialize_Some v t E) in *.
    destruct fuel as [|fuel]; [lia|].
    rewrite join_cons_append, member_append, parseMembers_S.
    rewrite next_quote, parseChars_quoteChars, next_colon.
    destruct (flat_map memberTexts ps) as [|x xs] eqn:Em.
    + rewrite (Hv t E Huv fuel _); [|lia|reflexivity].
      rewrite (proj1 (next_brace rest)), (proj2 (next_brace rest)).
      rewrite (memberTexts_nil ps Em). reflexivity.
    + rewrite (Hv t E Huv fuel _); [|lia|reflexivity].
      rewrite next_comma.
      rewrite (IH ltac:(discriminate) Hps Hups fuel rest); [reflexivity|].
      unfold list_sum. lia.
  - rewrite (serialize_None v E) in *. cbn [isUndefined] in *.
    apply IH; assumption.
Qed.

Lemma objSet_fresh (k : string) (v : value) (ps : list (string * value)) :
  ~ In k (map fst ps) -> objSet k v ps = ps ++ [(k, v)].
Proof.
  induction ps as [|[k' v'] ps IH]; cbn; [reflexivity|].
  intros Hn. destruct (String.eqb_spec k' k) as [->|_].
  - exfalso. apply Hn. left. reflexivity.
  - rewrite IH; [reflexivity | intros H; apply Hn; right; exact H].
Qed.

Lemma objOfMembers_unique (members : list (string * value)) :
  NoDup (map fst members) -> objOfMembers members = members.
Proof.
  unfold objOfMembers.
  assert (H : forall acc, NoDup (map fst (acc ++ members)) ->
                fold_left (fun o kv => objSet (fst kv) (snd kv) o) members acc = acc ++ members).
  { induction members as [|[k v] ms IH]; intros acc Hnd; cbn [fold_left fst snd].
    - rewrite List.app_nil_r. reflexivity.
    - rewrite objSet_fresh.
      + rewrite IH; rewrite <- List.app_assoc; [reflexivity | exact Hnd].
      + rewrite map_app in Hnd. cbn in Hnd. apply NoDup_remove_2 in Hnd.
        intros Hin. apply Hnd. apply in_or_app. left. exact Hin. }
  intros Hnd. apply (H []). exact Hnd.
Qed.

Lemma stripMember_keys (ps : list (string * value)) :
  map fst (flat_map stripMember ps) = map fst (written ps).
Proof.
  induction ps as [|[k v] ps IH]; [reflexivity|].
  rewrite stripMember_cons. unfold written in *. cbn [filter snd].
  destruct (isUndefined v); cbn [negb map fst]; rewrite IH; reflexivity.
Qed.

(** Every value reads back from its text, whatever follows the text. *)
Lemma parseValue_serialize (v : value) : readsBack v.
Proof.
  induction v as [| |b|z|s|l IHl|ps IHps] using value_nested_ind;
    intros t Ht Hu fuel rest Hf Hr; cbn [need] in Hf;
    (destruct fuel as [|fuel]; [lia|]).
  - discriminate Ht.
  - inversion Ht; subst. reflexivity.
  - destruct b; inversion Ht; subst; reflexivity.
  - inversion Ht; subst. rewrite parseValue_S.
    destruct (intToString_head z) as [c [t [E [Hws Hd]]]].
    rewrite E. cbn [String.append skipWs]. rewrite Hws, Hd.
    change (String c (t +++ rest)) with (String c t +++ rest). rewrite <- E.
    rewrite (parseNumber_intToString z rest Hr). reflexivity.
  - inversion Ht; subst.
    rewrite quoteJSONString_append, parseValue_string, parseChars_quoteChars. reflexivity.
  - rewrite serialize_Arr in Ht. inversion Ht; subst. clear Ht.
    apply uniqueKeys_Arr in Hu. rewrite strip_Arr.
    cbn [String.append]. rewrite append_assoc. cbn [String.append].
    rewrite parseValue_array.
    destruct l as [|e l].
    + reflexivity.
    + assert (Ho : opensValue (join "," (map elementText (e :: l)))).
      { cbn [map]. pose proof (elementText_opens e) as Ho.
        destruct (elementText e) as [|c t] eqn:Ee; [contradiction|].
        destruct (map elementText l); exact Ho. }
      destruct (skipWs_opens _ (String "]" rest) Ho) as [Hs Hb].
      rewrite Hs, Hb.
      rewrite (parseElements_items (e :: l) ltac:(discriminate) IHl Hu fuel rest);
        [reflexivity | lia].
  - rewrite serialize_Obj in Ht. inversion Ht; subst. clear Ht.
    apply uniqueKeys_Obj in Hu as [Hnd Hu]. rewrite strip_Obj.
    cbn [String.append]. rewrite append_assoc. cbn [String.append].
    rewrite parseValue_object.
    destruct (flat_map memberTexts ps) as [|m ms] eqn:Em.
    + rewrite (memberTexts_nil ps Em). reflexivity.
    + assert (Hm : exists x, m = String dquote x).
      { clear -Em. induction ps as [|[k v] ps IH]; [discriminate Em|].
        rewrite memberTexts_cons in Em. destruct (serialize v).
        - inversion Em. eexists. reflexivity.
        - apply IH, Em. }
      destruct Hm as [x ->].
      rewrite join_cons_append.
      change (String dquote x +++ ?y) with (String dquote (x +++ y)).
      change (skipWs (String dquote ?y)) with (String dquote y).
      change (startsWith "}" (String dquote ?y)) with (@None string).
      cbv iota.
      change (String dquote (x +++ ?y)) with (String dquote x +++ y).
      rewrite <- join_cons_append, <- Em.
      rewrite (parseMembers_members ps); try assumption.
      * rewrite objOfMembers_unique; [reflexivity|].
        rewrite stripMember_keys. exact Hnd.
      * rewrite Em. discriminate.
      * lia.
Qed.

(** *** The text is long enough to bound the descent *)

Lemma join_length (x : string) (l : list string) :
  String.length (join "," (x :: l)) =
    (String.length x + match l with
                       | [] => 0
                       | _ :: _ => S (String.length (join "," l))
                       end)%nat.
Proof.
  destruct l as [|y l]; cbn [join]; [lia|].
  rewrite append_length. cbn [String.append String.length]. reflexivity.
Qed.

Lemma serialize_nonempty (v : value) (t : string) :
  serialize v = Some t -> (1 <= String.length t)%nat.
Proof.
  intros H. apply serialize_opens in H. destruct t; [contradiction | cbn; lia].
Qed.

Lemma quoteJSONString_length (k : string) : (2 <= String.length (quoteJSONString k))%nat.
Proof.
  unfold quoteJSONString. cbn [String.length]. rewrite append_length. cbn. lia.
Qed.

Lemma need_le_length (v : value) (t : string) :
  serialize v = Some t -> (need v <= String.length t)%nat.
Proof.
  revert t.
  induction v as [| |b|z|s|l IHl|ps IHps] using value_nested_ind; intros t Ht;
    try (cbn [need]; apply (serialize_nonempty _ _ Ht)).
  - rewrite serialize_Arr in Ht. inversion Ht; subst. clear Ht.
    cbn [need String.append String.length]. rewrite append_length. cbn [String.length].
    assert (H : (List.length l + list_sum (map need l)
                 <= S (String.length (join "," (map elementText l))))%nat).
    { induction l as [|e l IH]; [cbn; lia|].
      inversion IHl as [|? ? He Hl]; subst. specialize (IH Hl).
      assert (Hne : (need e <= String.length (elementText e))%nat).
      { unfold elementText. destruct (serialize e) eqn:E; [apply He; reflexivity|].
        rewrite (serialize_None e E). cbn. lia. }
      cbn [map]. rewrite join_length. cbn [List.length list_sum fold_right].
      fold (list_sum (map need l)).
      destruct l as [|e2 l]; [cbn in *; lia|].
      cbn [map] in *. lia. }
    lia.
  - rewrite serialize_Obj in Ht. inversion Ht; subst. clear Ht.
    cbn [need String.append String.length]. rewrite append_length. cbn [String.length].
    assert (H : (list_sum (map (fun kv => if isUndefined (snd kv) then O
                                          else S (need (snd kv))) ps)
                 <= S (String.length (join "," (flat_map memberTexts ps))))%nat).
    { induction ps as [|[k v] ps IH]; [cbn; lia|].
      inversion IHps as [|? ? Hv Hps]; subst. specialize (IH Hps). cbn [snd] in Hv.
      rewrite memberTexts_cons. cbn [map list_sum fold_right snd].
      fold (list_sum (map (fun kv => if isUndefined (snd kv) then O
                                     else S (need (snd kv))) ps)).
      destruct (serialize v) as [t|] eqn:E.
      - rewrite (serialize_Some v t E). rewrite join_length.
        rewrite !append_length. cbn [String.length].
        pose proof (quoteJSONString_length k). specialize (Hv t eq_refl).
        destruct (flat_map memberTexts ps); [cbn in IH; lia | lia].
      - rewrite (serialize_None v E). cbn [isUndefined]. lia. }
    lia.
Qed.

Lemma append_empty (s : string) : s +++ "" = s.
Proof. induction s as [|c s IH]; cbn; [reflexivity | rewrite IH; reflexivity]. Qed.

(** [JSON.parse(JSON.stringify(v))] is [v] without its [undefined]s. *)
Lemma parse_stringify (v : value) (t : string) :
  uniqueKeys v -> stringify v = Some t -> parse t = Some (strip v).
Proof.
  intros Hu Ht. unfold stringify in Ht. unfold parse.
  pose proof (parseValue_serialize v t Ht Hu (S (String.length t)) "") as H.
  rewrite append_empty in H. rewrite H; [reflexivity | | reflexivity].
  pose proof (need_le_length v t Ht). lia.
Qed.

(** *** The profile *)

Lemma traverse_map {A B C : Type} (f : B -> option C) (g : A -> B) (h : A -> C) (l : list A) :
  (forall a, f (g a) = Some (h a)) -> traverse f (map g l) = Some (map h l).
Proof.
  intros H. induction l as [|a l IH]; cbn [map traverse]; [reflexivity|].
  rewrite H, IH. reflexivity.
Qed.

Lemma traverse_elements {A : Type} (f : value -> option A) (g : A -> value) (l : list A) :
  (forall a, f (stripElement (g a)) = Some a) ->
  traverse f (map stripElement (map g l)) = Some l.
Proof.
  intros H. rewrite map_map.
  rewrite (traverse_map f (fun a => stripElement (g a)) (fun a => a)); [|exact H].
  rewrite map_id. reflexivity.
Qed.

Lemma asGenre_genreValue (g : Genre.t) : asGenre (stripElement (genreValue g)) = Some g.
Proof. destruct g. reflexivity. Qed.

Lemma asNum_Num (z : Z) : asNum (stripElement (Num z)) = Some z.
Proof. reflexivity. Qed.

Lemma asMovie_movieValue (m : Movie.t) : asMovie (stripElement (movieValue m)) = Some m.
Proof.
  destruct m as [id title poster genre_ids genres].
  unfold movieValue. cbn [Movie.id Movie.title Movie.poster_path Movie.genre_ids Movie.genres].
  unfold stripElement. rewrite strip_Obj.
  destruct poster as [poster|], genre_ids as [ids|], genres as [gs|];
    cbn [nullableValue optionalValue flat_map stripMember isUndefined snd fst List.app strip];
    unfold asMovie;
    cbn [getProp find fst snd String.eqb Ascii.eqb Bool.eqb asNum asStr asNullable
         asOptional asArray option_map];
    fold stripElement;
    rewrite ?(traverse_elements asNum Num _ asNum_Num);
    rewrite ?(traverse_elements asGenre genreValue _ asGenre_genreValue);
    reflexivity.
Qed.

Lemma asTag_tagValue (t : Tag.t) : asTag (stripElement (tagValue t)) = Some t.
Proof. destruct t. reflexivity. Qed.

Lemma asProfile_profileValue (p : UserProfile) : asProfile (strip (profileValue p)) = Some p.
Proof.
  destruct p as [liked disliked avoided tagList mood].
  unfold profileValue.
  cbn [likedMovies dislikedMovies avoidedMovies tags currentMood].
  rewrite strip_Obj.
  destruct mood as [mood|];
    cbn [optionalValue flat_map stripMember isUndefined snd fst List.app strip];
    unfold asProfile;
    cbn [getProp find fst snd String.eqb Ascii.eqb Bool.eqb asStr asOptional asArray option_map];
    fold stripElement;
    rewrite !(traverse_elements asMovie movieValue _ asMovie_movieValue);
    rewrite (traverse_elements asTag tagValue _ asTag_tagValue);
    reflexivity.
Qed.

Lemma uniqueKeys_map {A : Type} (f : A -> value) (l : list A) :
  (forall a, uniqueKeys (f a)) -> uniqueKeys (Arr (map f l)).
Proof.
  intros H. apply uniqueKeys_Arr, Forall_map, Forall_forall. intros a _. apply H.
Qed.

Lemma NoDup_keys (keys : list string) : distinct keys = true -> NoDup keys.
Proof.
  induction keys as [|k keys IH]; [constructor|].
  cbn [distinct]. intros H. apply andb_true_iff in H as [Hk Hd].
  constructor; [|apply IH, Hd].
  intros Hin. apply negb_true_iff in Hk.
  assert (E : existsb (String.eqb k) keys = true).
  { apply existsb_exists. exists k. split; [exact Hin | apply String.eqb_refl]. }
  congruence.
Qed.

Lemma uniqueKeys_genreValue (g : Genre.t) : uniqueKeys (genreValue g).
Proof.
  apply uniqueKeys_Obj. split; [apply NoDup_keys; reflexivity|].
  repeat constructor.
Qed.

Lemma uniqueKeys_tagValue (t : Tag.t) : uniqueKeys (tagValue t).
Proof.
  apply uniqueKeys_Obj. split; [apply NoDup_keys; reflexivity|].
  repeat constructor.
Qed.

Lemma uniqueKeys_movieValue (m : Movie.t) : uniqueKeys (movieValue m).
Proof.
  apply uniqueKeys_Obj. split.
  - destruct m as [id title [poster|] [ids|] [gs|]]; apply NoDup_keys; reflexivity.
  - repeat constructor; cbn [snd].
    + destruct (Movie.poster_path m); exact I.
    + destruct (Movie.genre_ids m) as [ids|]; [|exact I].
      apply uniqueKeys_map. intros z. exact I.
    + destruct (Movie.genres m) as [gs|]; [|exact I].
      apply uniqueKeys_map, uniqueKeys_genreValue.
Qed.

Lemma uniqueKeys_profileValue (p : UserProfile) : uniqueKeys (profileValue p).
Proof.
  apply uniqueKeys_Obj. split.
  - destruct p as [liked disliked avoided tagList [mood|]]; apply NoDup_keys; reflexivity.
  - repeat constructor; cbn [snd];
      try (apply uniqueKeys_map, uniqueKeys_movieValue).
    + apply uniqueKeys_map, uniqueKeys_tagValue.
    + destruct (currentMood p); exact I.
Qed.

Lemma saveProfile_text (p : UserProfile) :
  exists t, stringify (profileValue p) = Some (String "{" t) /\ saveProfile p = String "{" t.
Proof.
  unfold saveProfile, stringify, profileValue. rewrite serialize_Obj.
  cbn [String.append]. eexists. split; reflexivity.
Qed.

(** C7. For every valid profile, what [saveProfile] stores (the text of
    [JSON.stringify]) is read back by [loadProfile] (through [JSON.parse])
    as the same profile: the lists of movies with their optional and
    nullable fields, the tags, and the mood, set or not. *)
Theorem loadProfile_saveProfile (p : UserProfile) :
  validProfile p = true ->
  loadProfile (Some (saveProfile p)) = Some p.
Proof.
  intros _.
  destruct (saveProfile_text p) as [t [Ht Hs]].
  rewrite Hs. unfold loadProfile.
  rewrite (parse_stringify (profileValue p) _ (uniqueKeys_profileValue p) Ht).
  apply asProfile_profileValue.
Qed.

Lemma loadProfile_saveProfile_witness :
  loadProfile (Some (saveProfile populatedProfile)) = Some populatedProfile /\
  loadProfile (Some (saveProfile profileWithoutMood)) = Some profileWithoutMood.
Proof.
  split; apply loadProfile_saveProfile; reflexivity.
Defined.

(* ================================================================== *)
(** * Further properties of the store, the persistence and the catalog
      helpers *)

(* ------------------------------------------------------------------ *)
(** ** Preference store: the other operations *)

(** X1. After [addDislikedMovie], on a profile in which the movie is not
    at once disliked and liked or avoided, the movie's id is disliked and
    is neither liked nor avoided. *)
Theorem addDislikedMovie_dislikedOnly (movie : Movie.t) (p : UserProfile) :
  (In (Movie.id movie) (dislikedIds p) ->
   ~ In (Movie.id movie) (likedIds p) /\ ~ In (Movie.id movie) (avoidedIds p)) ->
  dislikedOnly movie (addDislikedMovie movie p).
Proof.
  intros Hp. unfold dislikedOnly, addDislikedMovie.
  destruct (existsb _ (dislikedMovies p)) eqn:E.
  - apply existsb_idIs in E. split; [exact E | exact (Hp E)].
  - unfold likedIds, dislikedIds, avoidedIds. cbn.
    rewrite in_ids_snoc, !in_ids_filter. tauto.
Qed.

Lemma addDislikedMovie_dislikedOnly_witness :
  In 7 (likedIds profileWithout42) /\
  dislikedOnly movie7 (addDislikedMovie movie7 profileWithout42).
Proof.
  split; [cbn; tauto|].
  apply (addDislikedMovie_dislikedOnly movie7 profileWithout42).
  cbn. intros [H|[]]. discriminate H.
Defined.

(** X2. After [addAvoidedMovie], on a profile in which the movie is not
    at once avoided and liked or disliked, the movie's id is avoided and is
    neither liked nor disliked. *)
Theorem addAvoidedMovie_avoidedOnly (movie : Movie.t) (p : UserProfile) :
  (In (Movie.id movie) (avoidedIds p) ->
   ~ In (Movie.id movie) (likedIds p) /\ ~ In (Movie.id movie) (dislikedIds p)) ->
  avoidedOnly movie (addAvoidedMovie movie p).
Proof.
  intros Hp. unfold avoidedOnly, addAvoidedMovie.
  destruct (existsb _ (avoidedMovies p)) eqn:E.
  - apply existsb_idIs in E. split; [exact E | exact (Hp E)].
  - unfold likedIds, dislikedIds, avoidedIds. cbn.
    rewrite in_ids_snoc, !in_ids_filter. tauto.
Qed.

Lemma addAvoidedMovie_avoidedOnly_witness :
  In 5 (dislikedIds profileWithout42) /\
  avoidedOnly movie5 (addAvoidedMovie movie5 profileWithout42).
Proof.
  split; [cbn; tauto|].
  apply (addAvoidedMovie_avoidedOnly movie5 profileWithout42).
  cbn. intros [].
Defined.

Lemma addDislikedMovie_noop (movie : Movie.t) (q : UserProfile) :
  In (Movie.id movie) (dislikedIds q) -> addDislikedMovie movie q = q.
Proof.
  intros H. apply existsb_idIs in H. unfold addDislikedMovie. rewrite H. reflexivity.
Qed.

Lemma addAvoidedMovie_noop (movie : Movie.t) (q : UserProfile) :
  In (Movie.id movie) (avoidedIds q) -> addAvoidedMovie movie q = q.
Proof.
  intros H. apply existsb_idIs in H. unfold addAvoidedMovie. rewrite H. reflexivity.
Qed.

Lemma existsb_tagId (tagId : string) (l : list Tag.t) :
  existsb (fun t => String.eqb (Tag.id t) tagId) l = true <-> In tagId (map Tag.id l).
Proof.
  rewrite existsb_exists, in_map_iff.
  split; intros [t H]; exists t; rewrite String.eqb_eq in *; tauto.
Qed.

Lemma addTag_noop (tag : Tag.t) (q : UserProfile) :
  In (Tag.id tag) (tagIds q) -> addTag tag q = q.
Proof.
  intros H. apply existsb_tagId in H. unfold addTag. rewrite H. reflexivity.
Qed.

Lemma addDislikedMovie_In (movie : Movie.t) (p : UserProfile) :
  In (Movie.id movie) (dislikedIds (addDislikedMovie movie p)).
Proof.
  unfold addDislikedMovie. destruct (existsb _ (dislikedMovies p)) eqn:E.
  - apply existsb_idIs in E. exact E.
  - unfold dislikedIds. cbn. rewrite in_ids_snoc. right. reflexivity.
Qed.

Lemma addAvoidedMovie_In (movie : Movie.t) (p : UserProfile) :
  In (Movie.id movie) (avoidedIds (addAvoidedMovie movie p)).
Proof.
  unfold addAvoidedMovie. destruct (existsb _ (avoidedMovies p)) eqn:E.
  - apply existsb_idIs in E. exact E.
  - unfold avoidedIds. cbn. rewrite in_ids_snoc. right. reflexivity.
Qed.

Lemma addTag_In (tag : Tag.t) (p : UserProfile) :
  In (Tag.id tag) (tagIds (addTag tag p)).
Proof.
  unfold addTag. destruct (existsb _ (tags p)) eqn:E.
  - apply existsb_tagId in E. exact E.
  - unfold tagIds. cbn. rewrite map_app, in_app_iff. right. left. reflexivity.
Qed.

(** X3. [addDislikedMovie], [addAvoidedMovie] and [addTag] are idempotent
    on every profile: the second call finds the id and returns the profile
    it was given. *)
Theorem add_twice (movie : Movie.t) (tag : Tag.t) (p : UserProfile) :
  addDislikedMovie movie (addDislikedMovie movie p) = addDislikedMovie movie p /\
  addAvoidedMovie movie (addAvoidedMovie movie p) = addAvoidedMovie movie p /\
  addTag tag (addTag tag p) = addTag tag p.
Proof.
  split; [|split].
  - apply addDislikedMovie_noop, addDislikedMovie_In.
  - apply addAvoidedMovie_noop, addAvoidedMovie_In.
  - apply addTag_noop, addTag_In.
Qed.

Lemma filter_all {A : Type} (f : A -> bool) (l : list A) :
  (forall x, In x l -> f x = true) -> filter f l = l.
Proof.
  induction l as [|x l IH]; intros H; cbn; [reflexivity|].
  rewrite (H x (or_introl eq_refl)), IH; [reflexivity|].
  intros y Hy. apply H. right. exact Hy.
Qed.

Lemma filter_idIsNot_absent (movieId : Z) (l : list Movie.t) :
  ~ In movieId (ids l) -> filter (idIsNot movieId) l = l.
Proof.
  intros Hn. apply filter_all. intros m Hm. unfold idIsNot.
  apply negb_true_iff, Z.eqb_neq. intros E. apply Hn.
  unfold ids. apply in_map_iff. exists m. split; assumption.
Qed.

Lemma filter_tag_absent (tagId : string) (l : list Tag.t) :
  ~ In tagId (map Tag.id l) ->
  filter (fun t => negb (String.eqb (Tag.id t) tagId)) l = l.
Proof.
  intros Hn. apply filter_all. intros t Ht.
  apply negb_true_iff, String.eqb_neq. intros E. apply Hn.
  apply in_map_iff. exists t. split; assumption.
Qed.

Lemma in_tagIds_filter (tagId i : string) (l : list Tag.t) :
  In i (map Tag.id (filter (fun t => negb (String.eqb (Tag.id t) tagId)) l))
  <-> In i (map Tag.id l) /\ i <> tagId.
Proof.
  rewrite !in_map_iff. split.
  - intros [t [Ht Hin]]. apply filter_In in Hin as [Hin Hne].
    apply negb_true_iff, String.eqb_neq in Hne.
    split; [exists t; auto | congruence].
  - intros [[t [Ht Hin]] Hne]. exists t. split; [assumption|].
    apply filter_In. split; [assumption|].
    apply negb_true_iff, String.eqb_neq. congruence.
Qed.

(** X4. Each remove operation takes its id out of its set altogether:
    after [removeLikedMovie], [removeDislikedMovie], [removeAvoidedMovie]
    and [removeTag] the id is no longer in the liked, disliked, avoided and
    tag set, on every profile (also one that listed the id more than
    once). *)
Theorem remove_takes_out (movieId : Z) (tagId : string) (p : UserProfile) :
  ~ In movieId (likedIds (removeLikedMovie movieId p)) /\
  ~ In movieId (dislikedIds (removeDislikedMovie movieId p)) /\
  ~ In movieId (avoidedIds (removeAvoidedMovie movieId p)) /\
  ~ In tagId (tagIds (removeTag tagId p)).
Proof.
  unfold likedIds, dislikedIds, avoidedIds, tagIds. cbn.
  rewrite !in_ids_filter, in_tagIds_filter. tauto.
Qed.

(** X5. Removing an id that is not in the set is a no-op: the operation
    returns a profile equal to the one it was given. *)
Theorem remove_absent_noop (movieId : Z) (tagId : string) (p : UserProfile) :
  (~ In movieId (likedIds p) -> removeLikedMovie movieId p = p) /\
  (~ In movieId (dislikedIds p) -> removeDislikedMovie movieId p = p) /\
  (~ In movieId (avoidedIds p) -> removeAvoidedMovie movieId p = p) /\
  (~ In tagId (tagIds p) -> removeTag tagId p = p).
Proof.
  destruct p as [liked disliked avoided tagList mood].
  unfold removeLikedMovie, removeDislikedMovie, removeAvoidedMovie, removeTag,
    likedIds, dislikedIds, avoidedIds, tagIds. cbn.
  repeat split; intros H.
  - rewrite (filter_idIsNot_absent _ _ H). reflexivity.
  - rewrite (filter_idIsNot_absent _ _ H). reflexivity.
  - rewrite (filter_idIsNot_absent _ _ H). reflexivity.
  - rewrite (filter_tag_absent _ _ H). reflexivity.
Qed.

Lemma remove_absent_noop_witness :
  removeLikedMovie 42 profileWithout42 = profileWithout42 /\
  removeTag "genre-28" profileWithout42 = profileWithout42.
Proof.
  split.
  - apply (proj1 (remove_absent_noop 42 "genre-28" profileWithout42)).
    cbn. intuition discriminate.
  - apply (proj2 (proj2 (proj2 (remove_absent_noop 42 "genre-28" profileWithout42)))).
    cbn. intuition discriminate.
Defined.

Lemma NoDup_ids_filter (f : Movie.t -> bool) (l : list Movie.t) :
  NoDup (ids l) -> NoDup (ids (filter f l)).
Proof.
  unfold ids. induction l as [|m l IH]; cbn; [constructor|].
  intros H. inversion H as [|? ? Hm Hl]; subst.
  destruct (f m); cbn; [|apply IH, Hl].
  constructor; [|apply IH, Hl].
  intros Hin. apply Hm. apply in_map_iff in Hin as [m' [E Hin]].
  apply filter_In in Hin as [Hin _]. apply in_map_iff. exists m'. split; assumption.
Qed.

Lemma NoDup_snoc {A : Type} (l : list A) (x : A) :
  NoDup l -> ~ In x l -> NoDup (l ++ [x]).
Proof.
  intros Hl Hx. apply NoDup_app; [exact Hl | repeat constructor; intros [] |].
  intros a Ha [<-|[]]. exact (Hx Ha).
Qed.

Lemma dispatch_uniqueMovieIds (a : Action) (p : UserProfile) :
  uniqueMovieIds p -> uniqueMovieIds (dispatch a p).
Proof.
  intros [Hl [Hd Ha]].
  destruct a as [movie|movieId|movie|movieId|movie|movieId|tag|tagId|mood|];
    unfold uniqueMovieIds, likedIds, dislikedIds, avoidedIds in *; cbn.
  - unfold addLikedMovie. destruct (existsb _ (likedMovies p)) eqn:E; [tauto|].
    apply existsb_idIs_false in E. cbn.
    repeat split; try (apply NoDup_ids_filter; assumption).
    unfold ids in *. rewrite map_app. apply NoDup_snoc; assumption.
  - repeat split; try assumption. apply NoDup_ids_filter. assumption.
  - unfold addDislikedMovie. destruct (existsb _ (dislikedMovies p)) eqn:E; [tauto|].
    apply existsb_idIs_false in E. cbn.
    repeat split; try (apply NoDup_ids_filter; assumption).
    unfold ids in *. rewrite map_app. apply NoDup_snoc; assumption.
  - repeat split; try assumption. apply NoDup_ids_filter. assumption.
  - unfold addAvoidedMovie. destruct (existsb _ (avoidedMovies p)) eqn:E; [tauto|].
    apply existsb_idIs_false in E. cbn.
    repeat split; try (apply NoDup_ids_filter; assumption).
    unfold ids in *. rewrite map_app. apply NoDup_snoc; assumption.
  - repeat split; try assumption. apply NoDup_ids_filter. assumption.
  - unfold addTag. destruct (existsb _ (tags p)); cbn; tauto.
  - tauto.
  - tauto.
  - repeat split; constructor.
Qed.

(** X6. No set ever lists a movie id twice: from a profile whose three
    sets hold no id twice (the empty profile is one), every sequence of
    store calls leads to such a profile. *)
Theorem uniqueMovieIds_after_any_sequence (actions : list Action) (p : UserProfile) :
  uniqueMovieIds p -> uniqueMovieIds (run actions p).
Proof.
  revert p. induction actions as [|a actions IH]; intros p Hp; cbn.
  - exact Hp.
  - apply IH, dispatch_uniqueMovieIds, Hp.
Qed.

Lemma uniqueMovieIds_after_any_sequence_witness :
  uniqueMovieIds
    (run [AddLikedMovie movie42; AddLikedMovie movie42; AddDislikedMovie movie7;
          AddLikedMovie movie7; RemoveLikedMovie 42; AddAvoidedMovie movie42]
       initialProfile).
Proof.
  apply (uniqueMovieIds_after_any_sequence _ initialProfile).
  repeat split; constructor.
Defined.

Lemma NoDup_tagIds_filter (f : Tag.t -> bool) (l : list Tag.t) :
  NoDup (map Tag.id l) -> NoDup (map Tag.id (filter f l)).
Proof.
  induction l as [|t l IH]; cbn; [constructor|].
  intros H. inversion H as [|? ? Ht Hl]; subst.
  destruct (f t); cbn; [|apply IH, Hl].
  constructor; [|apply IH, Hl].
  intros Hin. apply Ht. apply in_map_iff in Hin as [t' [E Hin]].
  apply filter_In in Hin as [Hin _]. apply in_map_iff. exists t'. split; assumption.
Qed.

Lemma dispatch_uniqueTagIds (a : Action) (p : UserProfile) :
  uniqueTagIds p -> uniqueTagIds (dispatch a p).
Proof.
  intros Hp.
  destruct a as [movie|movieId|movie|movieId|movie|movieId|tag|tagId|mood|];
    unfold uniqueTagIds, tagIds in *; cbn; try assumption.
  - unfold addLikedMovie. destruct (existsb _ _); assumption.
  - unfold addDislikedMovie. destruct (existsb _ _); assumption.
  - unfold addAvoidedMovie. destruct (existsb _ _); assumption.
  - unfold addTag. destruct (existsb _ (tags p)) eqn:E; [assumption|]. cbn.
    rewrite map_app. apply NoDup_snoc; [assumption|].
    intros Hin. apply existsb_tagId in Hin. congruence.
  - apply NoDup_tagIds_filter. assumption.
  - constructor.
Qed.

(** X7. Tag ids stay unique: from a profile whose tags have distinct ids
    (the empty profile is one), every sequence of store calls leads to a
    profile whose tags have distinct ids. *)
Theorem uniqueTagIds_after_any_sequence (actions : list Action) (p : UserProfile) :
  uniqueTagIds p -> uniqueTagIds (run actions p).
Proof.
  revert p. induction actions as [|a actions IH]; intros p Hp; cbn.
  - exact Hp.
  - apply IH, dispatch_uniqueTagIds, Hp.
Qed.

Lemma uniqueTagIds_after_any_sequence_witness :
  uniqueTagIds
    (run [AddTag tagGenre28; AddTag tagGenreNoise; AddTag tagGenre28;
          RemoveTag "genre-slow-burn"; AddTag tagKeyword] initialProfile).
Proof.
  apply (uniqueTagIds_after_any_sequence _ initialProfile). constructor.
Defined.

(** X8. A call about one movie never moves another: for a call on the
    movie sets about the id [movieId], every other id is in the liked, the
    disliked and the avoided set after the call exactly when it was
    before. *)
Theorem other_movies_stay (a : Action) (movieId i : Z) (p : UserProfile) :
  movieTarget a = Some movieId -> i <> movieId ->
  (In i (likedIds (dispatch a p)) <-> In i (likedIds p)) /\
  (In i (dislikedIds (dispatch a p)) <-> In i (dislikedIds p)) /\
  (In i (avoidedIds (dispatch a p)) <-> In i (avoidedIds p)).
Proof.
  intros Ht Hne.
  destruct a as [movie|mid|movie|mid|movie|mid|tag|tagId|mood|];
    cbn in Ht; try discriminate Ht; inversion Ht; subst; clear Ht; cbn.
  - unfold addLikedMovie. destruct (existsb _ (likedMovies p)); [tauto|].
    unfold likedIds, dislikedIds, avoidedIds. cbn.
    rewrite in_ids_snoc, !in_ids_filter. tauto.
  - unfold likedIds, dislikedIds, avoidedIds. cbn. rewrite in_ids_filter. tauto.
  - unfold addDislikedMovie. destruct (existsb _ (dislikedMovies p)); [tauto|].
    unfold likedIds, dislikedIds, avoidedIds. cbn.
    rewrite in_ids_snoc, !in_ids_filter. tauto.
  - unfold likedIds, dislikedIds, avoidedIds. cbn. rewrite in_ids_filter. tauto.
  - unfold addAvoidedMovie. destruct (existsb _ (avoidedMovies p)); [tauto|].
    unfold likedIds, dislikedIds, avoidedIds. cbn.
    rewrite in_ids_snoc, !in_ids_filter. tauto.
  - unfold likedIds, dislikedIds, avoidedIds. cbn. rewrite in_ids_filter. tauto.
Qed.

Lemma other_movies_stay_witness :
  In 7 (likedIds (dispatch (AddDislikedMovie movie5) dislikedAndAvoided42)) /\
  In 42 (avoidedIds (dispatch (AddDislikedMovie movie5) dislikedAndAvoided42)).
Proof.
  pose proof (other_movies_stay (AddDislikedMovie movie5) 5 7 dislikedAndAvoided42
                eq_refl ltac:(discriminate)) as [H7 _].
  pose proof (other_movies_stay (AddDislikedMovie movie5) 5 42 dislikedAndAvoided42
                eq_refl ltac:(discriminate)) as [_ [_ H42]].
  split; [apply H7 | apply H42]; cbn; tauto.
Defined.

Lemma filter_idIsNot_snoc (movie : Movie.t) (l : list Movie.t) :
  ~ In (Movie.id movie) (ids l) ->
  filter (idIsNot (Movie.id movie)) (l ++ [movie]) = l.
Proof.
  intros H. rewrite filter_app, (filter_idIsNot_absent _ _ H). cbn.
  unfold idIsNot. rewrite Z.eqb_refl. cbn. apply List.app_nil_r.
Qed.

(** X9. Adding and then removing undoes the add: for a movie whose id is
    in none of the three sets, [addLikedMovie] followed by
    [removeLikedMovie] of its id gives back the profile, and so do the
    disliked and the avoided pair; for a tag whose id is not in the tag
    set, [addTag] followed by [removeTag] gives back the profile. *)
Theorem add_then_remove (movie : Movie.t) (tag : Tag.t) (p : UserProfile) :
  ~ In (Movie.id movie) (likedIds p) ->
  ~ In (Movie.id movie) (dislikedIds p) ->
  ~ In (Movie.id movie) (avoidedIds p) ->
  ~ In (Tag.id tag) (tagIds p) ->
  removeLikedMovie (Movie.id movie) (addLikedMovie movie p) = p /\
  removeDislikedMovie (Movie.id movie) (addDislikedMovie movie p) = p /\
  removeAvoidedMovie (Movie.id movie) (addAvoidedMovie movie p) = p /\
  removeTag (Tag.id tag) (addTag tag p) = p.
Proof.
  intros Hl Hd Ha Ht.
  pose proof (proj2 (existsb_idIs_false _ _) Hl) as El.
  pose proof (proj2 (existsb_idIs_false _ _) Hd) as Ed.
  pose proof (proj2 (existsb_idIs_false _ _) Ha) as Ea.
  assert (Et : existsb (fun t => String.eqb (Tag.id t) (Tag.id tag)) (tags p) = false).
  { destruct (existsb _ (tags p)) eqn:E; [|reflexivity].
    apply existsb_tagId in E. contradiction. }
  destruct p as [liked disliked avoided tagList mood].
  unfold likedIds, dislikedIds, avoidedIds, tagIds in *. cbn in *.
  unfold addLikedMovie, addDislikedMovie, addAvoidedMovie, addTag,
    removeLikedMovie, removeDislikedMovie, removeAvoidedMovie, removeTag.
  cbn. rewrite El, Ed, Ea, Et. cbn.
  rewrite !(filter_idIsNot_snoc movie) by assumption.
  rewrite !filter_idIsNot_absent by assumption.
  rewrite filter_app, (filter_tag_absent _ _ Ht). cbn.
  rewrite String.eqb_refl. cbn. rewrite List.app_nil_r.
  repeat split; reflexivity.
Qed.

Lemma add_then_remove_witness :
  removeLikedMovie 42 (addLikedMovie movie42 profileWithout42) = profileWithout42 /\
  removeTag "genre-28" (addTag tagGenre28 profileWithout42) = profileWithout42.
Proof.
  assert (H := add_then_remove movie42 tagGenre28 profileWithout42).
  split; [apply H | apply H]; cbn; intuition discriminate.
Defined.

Lemma exclusive_add_hypotheses (movie : Movie.t) (q : UserProfile) :
  exclusive q ->
  (In (Movie.id movie) (likedIds q) ->
   ~ In (Movie.id movie) (dislikedIds q) /\ ~ In (Movie.id movie) (avoidedIds q)) /\
  (In (Movie.id movie) (dislikedIds q) ->
   ~ In (Movie.id movie) (likedIds q) /\ ~ In (Movie.id movie) (avoidedIds q)) /\
  (In (Movie.id movie) (avoidedIds q) ->
   ~ In (Movie.id movie) (likedIds q) /\ ~ In (Movie.id movie) (dislikedIds q)).
Proof.
  intros Hq. specialize (Hq (Movie.id movie)). tauto.
Qed.

Lemma add_only (movie : Movie.t) (q : UserProfile) :
  exclusive q ->
  likedOnly movie (addLikedMovie movie q) /\
  dislikedOnly movie (addDislikedMovie movie q) /\
  avoidedOnly movie (addAvoidedMovie movie q).
Proof.
  intros Hq. destruct (exclusive_add_hypotheses movie q Hq) as [Hl [Hd Ha]].
  unfold likedOnly, dislikedOnly, avoidedOnly,
    addLikedMovie, addDislikedMovie, addAvoidedMovie.
  repeat split;
    match goal with
    | |- context [existsb (idIs (Movie.id movie)) ?l] =>
        destruct (existsb (idIs (Movie.id movie)) l) eqn:E;
        [apply existsb_idIs in E; tauto
        | unfold likedIds, dislikedIds, avoidedIds; cbn;
          rewrite ?in_ids_snoc, ?in_ids_filter; tauto]
    end.
Qed.

(** X10. The last add decides: starting from a profile whose three sets
    are mutually exclusive and after any sequence of store calls, adding a
    movie to the liked (disliked, avoided) set leaves its id in that set
    and in no other. *)
Theorem last_add_decides (actions : list Action) (movie : Movie.t) (p : UserProfile) :
  exclusive p ->
  likedOnly movie (run (actions ++ [AddLikedMovie movie]) p) /\
  dislikedOnly movie (run (actions ++ [AddDislikedMovie movie]) p) /\
  avoidedOnly movie (run (actions ++ [AddAvoidedMovie movie]) p).
Proof.
  intros Hp. unfold run. rewrite !fold_left_app. cbn [fold_left dispatch].
  apply add_only. apply run_exclusive, Hp.
Qed.

Lemma last_add_decides_witness :
  dislikedOnly movie42
    (run ([AddLikedMovie movie42; AddAvoidedMovie movie42] ++ [AddDislikedMovie movie42])
       initialProfile).
Proof.
  apply (last_add_decides [AddLikedMovie movie42; AddAvoidedMovie movie42] movie42
           initialProfile).
  apply exclusive_initial.
Defined.

(** X11. The parts of the profile do not interfere: a call on the movie
    sets leaves the tags and the mood as they were; [addTag] and
    [removeTag] leave the three movie sets and the mood; [setCurrentMood]
    leaves the movie sets and the tags; only [clearProfile] changes
    everything, to the empty profile. *)
Theorem calls_do_not_interfere (a : Action) (p : UserProfile) :
  match a with
  | AddTag _ | RemoveTag _ =>
      likedMovies (dispatch a p) = likedMovies p /\
      dislikedMovies (dispatch a p) = dislikedMovies p /\
      avoidedMovies (dispatch a p) = avoidedMovies p /\
      currentMood (dispatch a p) = currentMood p
  | SetCurrentMood mood =>
      likedMovies (dispatch a p) = likedMovies p /\
      dislikedMovies (dispatch a p) = dislikedMovies p /\
      avoidedMovies (dispatch a p) = avoidedMovies p /\
      tags (dispatch a p) = tags p /\
      currentMood (dispatch a p) = Some mood
  | ClearProfile => dispatch a p = initialProfile
  | _ =>
      tags (dispatch a p) = tags p /\ currentMood (dispatch a p) = currentMood p
  end.
Proof.
  destruct a as [movie|movieId|movie|movieId|movie|movieId|tag|tagId|mood|]; cbn;
    try (repeat split; reflexivity).
  - unfold addLikedMovie. destruct (existsb _ _); split; reflexivity.
  - unfold addDislikedMovie. destruct (existsb _ _); split; reflexivity.
  - unfold addAvoidedMovie. destruct (existsb _ _); split; reflexivity.
  - unfold addTag. destruct (existsb _ _); repeat split; reflexivity.
Qed.

(* ------------------------------------------------------------------ *)
(** ** Persistence *)

Lemma loadProfile_saveProfile_any (p : UserProfile) :
  loadProfile (Some (saveProfile p)) = Some p.
Proof.
  destruct (saveProfile_text p) as [t [Ht Hs]].
  rewrite Hs. unfold loadProfile.
  rewrite (parse_stringify (profileValue p) _ (uniqueKeys_profileValue p) Ht).
  apply asProfile_profileValue.
Qed.

(** X12. The stored text tells profiles apart: two different profiles
    are never saved as the same text. *)
Theorem saveProfile_distinct (p q : UserProfile) :
  p <> q -> saveProfile p <> saveProfile q.
Proof.
  intros Hne E. apply Hne.
  pose proof (loadProfile_saveProfile_any p) as Hp.
  rewrite E, loadProfile_saveProfile_any in Hp.
  inversion Hp. reflexivity.
Qed.

Lemma saveProfile_distinct_witness :
  saveProfile populatedProfile <> saveProfile profileWithoutMood.
Proof.
  apply (saveProfile_distinct populatedProfile profileWithoutMood). discriminate.
Defined.

(* ------------------------------------------------------------------ *)
(** ** The catalog helpers *)

Lemma isBlank_cons (c : ascii) (s : string) :
  isBlank (String c s) = isWhiteSpace c && isBlank s.
Proof. reflexivity. Qed.

Lemma trimEnd_blank (s : string) : trimEnd s = "" <-> isBlank s = true.
Proof.
  induction s as [|c s IH]; [cbn; tauto|].
  rewrite isBlank_cons, andb_true_iff. cbn [trimEnd].
  destruct (trimEnd s) as [|d t].
  - destruct (isWhiteSpace c); split; intros H; try discriminate H.
    + split; [reflexivity | apply IH; reflexivity].
    + reflexivity.
    + destruct H as [H _]. discriminate H.
  - split; [discriminate|]. intros [_ H]. apply IH in H. discriminate H.
Qed.

Lemma isBlank_trimStart (s : string) : isBlank (trimStart s) = isBlank s.
Proof.
  induction s as [|c s IH]; [reflexivity|].
  cbn [trimStart]. destruct (isWhiteSpace c) eqn:E.
  - rewrite IH, isBlank_cons, E. reflexivity.
  - reflexivity.
Qed.

Lemma trim_blank (s : string) : trim s = "" <-> isBlank s = true.
Proof. unfold trim. rewrite trimEnd_blank, isBlank_trimStart. reflexivity. Qed.

(** X13. [searchMovies] on a blank query (empty, or white space only)
    issues no request and returns the empty list; on any other query it
    issues one search request, with the query as it was given (not
    trimmed) and the page (1 when none is given), and returns the answer,
    or the empty list when the request fails. *)
Theorem searchMovies_spec (query : string) (page : option Z) (e : Endpoints) :
  searchMovies query page e =
    if isBlank query then ([], Some [])
    else
      ([GetSearchMovie query (match page with Some n => n | None => 1 end)],
       Some (match searchMovie e query (match page with Some n => n | None => 1 end) with
             | Some results => results
             | None => []
             end)).
Proof.
  unfold searchMovies.
  destruct (trim query) as [|c t] eqn:E.
  - apply trim_blank in E. rewrite E. reflexivity.
  - assert (Hb : isBlank query = false).
    { destruct (isBlank query) eqn:B; [|reflexivity].
      apply trim_blank in B. congruence. }
    rewrite Hb. unfold fetchTryCatch, fetchBind, apiGetSearchMovie, fetchRet.
    destruct page as [n|]; cbn [withDefault];
      destruct (searchMovie e query _); reflexivity.
Qed.

(** X14. Against a catalog whose every answer is either a body of the
    documented shape or a failed request (the awaited [api.get] throws), no
    catalog helper lets an exception escape, and each issues at most one
    request: [getPopularMovies], [getGenres], [searchMovies],
    [getMovieDetails], [getRecommendations], [extractTagsFromMovies],
    [getMoodBasedRecommendations] and [getTagBasedRecommendations]. An
    answer of another shape (a body without its [results] or [genres]
    field) is not an answer of [Catalog] or [Endpoints], and nothing is
    stated about it. *)
Theorem helpers_settle (c : Catalog) (e : Endpoints) :
  (forall page, settles (getPopularMovies page c)) /\
  settles (getGenres c) /\
  (forall query page, settles (searchMovies query page e)) /\
  (forall movieId, settles (getMovieDetails movieId e)) /\
  (forall movieId, settles (getRecommendations movieId e)) /\
  (forall movies, settles (extractTagsFromMovies movies c)) /\
  (forall mood page, settles (getMoodBasedRecommendations mood page c)) /\
  (forall tags liked disliked avoided page,
     settles (getTagBasedRecommendations tags liked disliked avoided page c)).
Proof.
  unfold settles.
  split; [|split; [|split; [|split; [|split; [|split; [|split]]]]]]; intros.
  - unfold getPopularMovies, tryCatch, bind, ret, apiGetMoviePopular.
    destruct (moviePopular c _); cbn; split; (discriminate || lia).
  - unfold getGenres, tryCatch, bind, ret, apiGetGenreMovieList.
    destruct (genreMovieList c); cbn; split; (discriminate || lia).
  - unfold searchMovies. destruct (trim query); [cbn; split; (discriminate || lia)|].
    unfold fetchTryCatch, fetchBind, fetchRet, apiGetSearchMovie.
    destruct (searchMovie e _ _); cbn; split; (discriminate || lia).
  - unfold getMovieDetails, fetchTryCatch, fetchBind, fetchRet, apiGetMovie.
    destruct (movieById e _); cbn; split; (discriminate || lia).
  - unfold getRecommendations, fetchTryCatch, fetchBind, fetchRet,
      apiGetMovieRecommendations.
    destruct (movieRecommendations e _); cbn; split; (discriminate || lia).
  - unfold extractTagsFromMovies, getGenres. unfold tryCatch, bind, ret, apiGetGenreMovieList.
    destruct (genreMovieList c); cbn; split; (discriminate || lia).
  - unfold getMoodBasedRecommendations, tryCatch, bind, ret, apiGetDiscoverMovie.
    destruct (discoverMovie c _); cbn; split; (discriminate || lia).
  - unfold getTagBasedRecommendations, tryCatch.
    destruct (_ && _).
    + unfold getPopularMovies, tryCatch, bind, ret, apiGetMoviePopular.
      destruct (moviePopular c _); cbn; split; (discriminate || lia).
    + unfold bind, ret, apiGetDiscoverMovie.
      destruct (discoverMovie c _); cbn; split; (discriminate || lia).
Qed.

(** X15. When the catalog answers no request, every helper still returns:
    the list helpers return the empty list, [getMovieDetails] returns
    [null], and [extractTagsFromMovies] returns its tags, each with the
    fallback name. *)
Theorem helpers_degrade (c : Catalog) (e : Endpoints) :
  (forall page, moviePopular c page = None) ->
  genreMovieList c = None ->
  (forall params, discoverMovie c params = None) ->
  (forall query page, searchMovie e query page = None) ->
  (forall movieId, movieById e movieId = None) ->
  (forall movieId, movieRecommendations e movieId = None) ->
  (forall page, outcome (getPopularMovies page c) = Some []) /\
  outcome (getGenres c) = Some [] /\
  (forall query page, snd (searchMovies query page e) = Some []) /\
  (forall movieId, snd (getMovieDetails movieId e) = Some None) /\
  (forall movieId, snd (getRecommendations movieId e) = Some []) /\
  (forall mood page, outcome (getMoodBasedRecommendations mood page c) = Some []) /\
  (forall tags liked disliked avoided page,
     outcome (getTagBasedRecommendations tags liked disliked avoided page c) = Some []) /\
  (forall movies tag,
     In tag (returned (extractTagsFromMovies movies c)) ->
     Tag.name tag = "Unknown Genre").
Proof.
  intros Hpop Hgen Hdisc Hsearch Hbyid Hrec.
  split; [|split; [|split; [|split; [|split; [|split; [|split]]]]]]; intros.
  - unfold getPopularMovies, tryCatch, bind, ret, apiGetMoviePopular, outcome.
    rewrite Hpop. reflexivity.
  - unfold getGenres, tryCatch, bind, ret, apiGetGenreMovieList, outcome.
    rewrite Hgen. reflexivity.
  - unfold searchMovies. destruct (trim query); [reflexivity|].
    unfold fetchTryCatch, fetchBind, fetchRet, apiGetSearchMovie.
    rewrite Hsearch. reflexivity.
  - unfold getMovieDetails, fetchTryCatch, fetchBind, fetchRet, apiGetMovie.
    rewrite Hbyid. reflexivity.
  - unfold getRecommendations, fetchTryCatch, fetchBind, fetchRet,
      apiGetMovieRecommendations.
    rewrite Hrec. reflexivity.
  - unfold getMoodBasedRecommendations, tryCatch, bind, ret, apiGetDiscoverMovie, outcome.
    rewrite Hdisc. reflexivity.
  - unfold getTagBasedRecommendations, tryCatch, outcome.
    destruct (_ && _).
    + unfold getPopularMovies, tryCatch, bind, ret, apiGetMoviePopular.
      rewrite Hpop. reflexivity.
    + unfold bind, ret, apiGetDiscoverMovie. rewrite Hdisc. reflexivity.
  - rewrite extractTagsFromMovies_returned, Hgen in H.
    apply in_map_iff in H as [[g n] [E _]]. subst tag. reflexivity.
Qed.

Lemma helpers_degrade_witness :
  outcome (getTagBasedRecommendations [tagGenre28] [7] [5] None None catalogDown) = Some [] /\
  snd (getMovieDetails 42 endpointsDown) = Some None.
Proof.
  assert (H := helpers_degrade catalogDown endpointsDown
                 (fun _ => eq_refl) eq_refl (fun _ => eq_refl)
                 (fun _ _ => eq_refl) (fun _ => eq_refl) (fun _ => eq_refl)).
  split; apply H.
Defined.

(* ------------------------------------------------------------------ *)
(** ** Genre tags and genre ids *)

Lemma mathInt_acc (d : uint) (acc : positive) :
  fold_left (fun a x => a * 10 + x) (digitsOf d) (Z.pos acc)
    = Z.pos (Pos.of_uint_acc d acc).
Proof.
  revert acc. induction d; intros acc; cbn [digitsOf fold_left Pos.of_uint_acc];
    try reflexivity;
    match goal with
    | |- fold_left _ _ ?z = _ =>
        match goal with
        | |- _ = Z.pos (Pos.of_uint_acc _ ?q) =>
            replace z with (Z.pos q) by lia
        end
    end; apply IHd.
Qed.

Lemma mathInt_digitsOf (d : uint) : mathInt 10 (digitsOf d) = Z.of_uint d.
Proof.
  unfold mathInt, Z.of_uint.
  induction d; cbn [digitsOf fold_left Pos.of_uint]; [reflexivity | exact IHd | ..];
    match goal with
    | |- _ = Z.of_N (N.pos (Pos.of_uint_acc _ ?k)) => exact (mathInt_acc d k)
    end.
Qed.

Lemma leadingDigits_uint (d : uint) :
  leadingDigits 10 (NilEmpty.string_of_uint d) = digitsOf d.
Proof.
  induction d; cbn [NilEmpty.string_of_uint digitsOf]; [reflexivity | ..];
    cbn [leadingDigits];
    match goal with
    | |- context [digitValue ?c] =>
        let v := eval vm_compute in (digitValue c) in change (digitValue c) with v
    end; cbv iota beta;
    match goal with
    | |- context [?k <? 10] => change (k <? 10) with true
    end; cbv iota; rewrite IHd; reflexivity.
Qed.

Lemma parseInt_digits (p : positive) :
  parseInt (NilEmpty.string_of_uint (Pos.to_uint p)) = Int (Z.pos p) /\
  parseInt (String "-" (NilEmpty.string_of_uint (Pos.to_uint p))) = Int (Z.neg p).
Proof.
  pose proof (DecimalPos.Unsigned.of_to p) as Hof.
  pose proof (to_uint_no_leading_zero p) as Hz.
  pose proof (DecimalPos.Unsigned.to_uint_nonnil p) as Hnil.
  assert (Hv : mathInt 10 (digitsOf (Pos.to_uint p)) = Z.pos p).
  { rewrite mathInt_digitsOf. unfold Z.of_uint. rewrite Hof. reflexivity. }
  pose proof (leadingDigits_uint (Pos.to_uint p)) as Hl.
  destruct (Pos.to_uint p) as [|d|d|d|d|d|d|d|d|d|d] eqn:E;
    [contradiction | exfalso; apply (Hz d); reflexivity | ..];
    cbn [NilEmpty.string_of_uint digitsOf] in Hl, Hv |- *;
    unfold parseInt; cbn [trimStart];
    change (isWhiteSpace "-") with false;
    match goal with
    | |- context [isWhiteSpace ?c] => change (isWhiteSpace c) with false
    end;
    cbv beta iota zeta; rewrite Hl; cbv beta iota zeta; rewrite Hv;
    split; reflexivity.
Qed.

Lemma parseInt_intToString_any (z : Z) : parseInt (intToString z) = Int z.
Proof.
  unfold intToString. destruct z as [|p|p]; cbn [Z.to_int NilZero.string_of_int].
  - reflexivity.
  - assert (E : NilZero.string_of_uint (Pos.to_uint p)
                = NilEmpty.string_of_uint (Pos.to_uint p)).
    { pose proof (DecimalPos.Unsigned.to_uint_nonnil p).
      destruct (Pos.to_uint p); [contradiction | reflexivity ..]. }
    rewrite E. apply parseInt_digits.
  - assert (E : NilZero.string_of_uint (Pos.to_uint p)
                = NilEmpty.string_of_uint (Pos.to_uint p)).
    { pose proof (DecimalPos.Unsigned.to_uint_nonnil p).
      destruct (Pos.to_uint p); [contradiction | reflexivity ..]. }
    rewrite E. apply parseInt_digits.
Qed.

Lemma genreTagId_parse (g : Z) :
  parseInt (replace "genre-" "" (genreTagId g)) = Int g.
Proof.
  unfold genreTagId. rewrite replace_genre_prefix. apply parseInt_intToString_any.
Qed.

(** X16. A genre tag id leads back to its genre: for every safe integer
    [g] (an integer that a JavaScript number holds exactly, printed in
    plain decimal digits), [parseInt] reads the decimal text of [g] as [g],
    so the id [genre-<g>] that [extractTagsFromMovies] gives a tag is
    parsed by the genre-id extraction of [getTagBasedRecommendations] as
    [g]; different safe genre ids get different tag ids. *)
Theorem genreTagId_reverse (g h : Z) :
  isSafeInteger g = true ->
  isSafeInteger h = true ->
  parseInt (intToString g) = Int g /\
  parseInt (replace "genre-" "" (genreTagId g)) = Int g /\
  (genreTagId g = genreTagId h <-> g = h).
Proof.
  intros _ _.
  split; [apply parseInt_intToString_any|]. split; [apply genreTagId_parse|].
  split; [|intros ->; reflexivity].
  intros E. pose proof (genreTagId_parse g) as Hg.
  rewrite E, genreTagId_parse in Hg. inversion Hg. reflexivity.
Qed.

Lemma genreTagId_reverse_witness :
  parseInt (intToString 10751) = Int 10751 /\
  parseInt (replace "genre-" "" (genreTagId (-28))) = Int (-28) /\
  (genreTagId 10751 = genreTagId 28 <-> 10751 = 28).
Proof.
  split; [|split].
  - exact (proj1 (genreTagId_reverse 10751 28 eq_refl eq_refl)).
  - exact (proj1 (proj2 (genreTagId_reverse (-28) 28 eq_refl eq_refl))).
  - exact (proj2 (proj2 (genreTagId_reverse 10751 28 eq_refl eq_refl))).
Defined.

Lemma extractGenreIds_genreTags (genres : list Genre.t) (entries : list (Z * Z)) :
  extractGenreIds (map (genreTag genres) entries) = map Int (map fst entries).
Proof.
  induction entries as [|[g n] entries IH]; [reflexivity|].
  cbn [map fst]. rewrite extractGenreIds_cons.
  cbn [genreTag Tag.type Tag.id String.eqb].
  change (String.eqb "genre" "genre") with true. cbv iota.
  rewrite genreTagId_parse, IH. reflexivity.
Qed.

(** X17. The tags of [extractTagsFromMovies] carry their genres over to
    [getTagBasedRecommendations]: when the genre ids the movies list are
    safe integers, the genre ids extracted from the derived tags are the
    genre ids of the input in rank order, and with at least one genre the
    request issued is the discover query for exactly these ids, joined
    with commas. *)
Theorem derived_tags_query
    (movies : list Movie.t) (c c' : Catalog)
    (liked disliked : list Z) (avoided : option (list Z)) (page : option Z) :
  Forall (fun g => isSafeInteger g = true) (genreStream movies) ->
  let derived := returned (extractTagsFromMovies movies c) in
  extractGenreIds derived = map Int (rankedGenreIds movies) /\
  (genreStream movies <> [] ->
   requests (getTagBasedRecommendations derived liked disliked avoided page c') =
     [GetDiscoverMovie
        {| with_genres := Some (join "," (map intToString (rankedGenreIds movies)));
           sort_by := "popularity.desc";
           page := match page with Some n => n | None => 1 end |}]).
Proof.
  intros _ derived.
  assert (Hids : extractGenreIds derived = map Int (rankedGenreIds movies)).
  { subst derived. rewrite extractTagsFromMovies_returned.
    apply extractGenreIds_genreTags. }
  split; [exact Hids|].
  intros Hne. unfold getTagBasedRecommendations, requests, tryCatch.
  rewrite Hids.
  assert (Hr : rankedGenreIds movies <> []).
  { destruct (genreStream movies) as [|g gs] eqn:E; [contradiction|].
    intros Hnil. assert (Hin : In g (rankedGenreIds movies)).
    { apply rankedGenreIds_In. rewrite E. left. reflexivity. }
    rewrite Hnil in Hin. contradiction. }
  destruct (rankedGenreIds movies) as [|g gs] eqn:Er; [contradiction|].
  cbn [map List.length Nat.eqb andb Nat.ltb Nat.leb].
  unfold bind, apiGetDiscoverMovie, ret.
  rewrite !map_map. cbn [numberToString].
  destruct page as [n|]; cbn [withDefault];
    destruct (discoverMovie c' _); reflexivity.
Qed.

Lemma derived_tags_query_witness :
  requests (getTagBasedRecommendations
              (returned (extractTagsFromMovies fourMovies catalogDown))
              [] [5] None (Some 2) catalogWith5) =
    [GetDiscoverMovie
       {| with_genres := Some "7,9,11"; sort_by := "popularity.desc"; page := 2 |}].
Proof.
  apply (proj2 (derived_tags_query fourMovies catalogDown catalogWith5 [] [5] None (Some 2)
                  ltac:(repeat constructor))).
  discriminate.
Defined.

Lemma ranksBefore_irrefl (movies : list Movie.t) (g : Z) : ~ ranksBefore movies g g.
Proof. unfold ranksBefore. lia. Qed.

Lemma rankedGenreIds_NoDup (movies : list Movie.t) : NoDup (rankedGenreIds movies).
Proof.
  apply (StronglySorted_NoDup (ranksBefore movies)).
  - apply ranksBefore_irrefl.
  - apply rankedGenreIds_sorted.
Qed.

Lemma genreTagId_inj (g h : Z) : genreTagId g = genreTagId h -> g = h.
Proof.
  intros E. pose proof (genreTagId_parse g) as Hg.
  rewrite E, genreTagId_parse in Hg. inversion Hg. reflexivity.
Qed.

Lemma NoDup_map_injective {A B : Type} (f : A -> B) (l : list A) :
  (forall a b, f a = f b -> a = b) -> NoDup l -> NoDup (map f l).
Proof.
  intros Hf Hl. induction Hl as [|a l Ha Hl IH]; cbn; constructor; [|exact IH].
  intros Hin. apply in_map_iff in Hin as [b [E Hb]]. apply Hf in E. subst b. exact (Ha Hb).
Qed.

(** X18. [extractTagsFromMovies] returns one tag per genre of the input:
    no two tags have the same id, a genre id of the input has its tag
    [genre-<id>] and no other genre has one, and there are as many tags as
    distinct genre ids. *)
Theorem extractTagsFromMovies_one_tag_per_genre (movies : list Movie.t) (c : Catalog) :
  let derived := returned (extractTagsFromMovies movies c) in
  NoDup (map Tag.id derived) /\
  (forall g : Z, In (genreTagId g) (map Tag.id derived) <-> In g (genreStream movies)) /\
  List.length derived = List.length (nodup Z.eq_dec (genreStream movies)).
Proof.
  intros derived.
  assert (Hids : map Tag.id derived = map genreTagId (rankedGenreIds movies)).
  { subst derived. rewrite extractTagsFromMovies_returned. apply genreTag_id. }
  split; [|split].
  - rewrite Hids. apply NoDup_map_injective.
    + intros g h. apply genreTagId_inj.
    + apply rankedGenreIds_NoDup.
  - intros g. rewrite Hids, <- rankedGenreIds_In, in_map_iff. split.
    + intros [h [E Hh]]. apply genreTagId_inj in E. subst h. exact Hh.
    + intros Hg. exists g. split; [reflexivity | exact Hg].
  - rewrite <- (length_map Tag.id), Hids, length_map.
    apply Permutation_length, NoDup_Permutation.
    + apply rankedGenreIds_NoDup.
    + apply NoDup_nodup.
    + intros g. rewrite rankedGenreIds_In, nodup_In. reflexivity.
Qed.

Lemma genreTagName_nonempty (genres : list Genre.t) (g : Z) : genreTagName genres g <> "".
Proof.
  unfold genreTagName. destruct (find _ genres) as [genre|]; [|discriminate].
  destruct (Genre.name genre); discriminate.
Qed.

(** X19. Every tag of [extractTagsFromMovies] is an automatic genre tag
    with a name: its source is ['auto'], its type is ['genre'], and its name
    is never empty; it is the name of the first genre of the catalog's list
    with the tag's genre id when that name is not empty, and
    ['Unknown Genre'] when the list has no such genre. *)
Theorem extractTagsFromMovies_tag_fields (movies : list Movie.t) (c : Catalog) (tag : Tag.t) :
  In tag (returned (extractTagsFromMovies movies c)) ->
  Tag.source tag = "auto" /\ Tag.type tag = "genre" /\ Tag.name tag <> "" /\
  exists g : Z,
    In g (genreStream movies) /\ Tag.id tag = genreTagId g /\
    let genres := match genreMovieList c with Some l => l | None => [] end in
    match find (fun genre => Genre.id genre =? g) genres with
    | Some genre => Genre.name genre <> "" -> Tag.name tag = Genre.name genre
    | None => Tag.name tag = "Unknown Genre"
    end.
Proof.
  rewrite extractTagsFromMovies_returned. intros H.
  apply in_map_iff in H as [[g n] [E Hin]]. subst tag.
  cbn [genreTag Tag.source Tag.type Tag.name Tag.id].
  split; [reflexivity|]. split; [reflexivity|]. split; [apply genreTagName_nonempty|].
  exists g. split; [|split; [reflexivity|]].
  - apply rankedGenreIds_In. unfold rankedGenreIds.
    apply in_map_iff. exists (g, n). split; [reflexivity | exact Hin].
  - cbv zeta. unfold genreTagName.
    destruct (find _ _) as [genre|]; [|reflexivity].
    intros Hn. destruct (Genre.name genre); [contradiction | reflexivity].
Qed.

Lemma extractTagsFromMovies_tag_fields_witness :
  Tag.source (genreTag [] (7, 3)) = "auto" /\ Tag.name (genreTag [] (7, 3)) <> "".
Proof.
  assert (H := extractTagsFromMovies_tag_fields fourMovies catalogDown (genreTag [] (7, 3))).
  destruct H as [Hs [_ [Hn _]]]; [|split; assumption].
  cbn. tauto.
Defined.

(* ------------------------------------------------------------------ *)
(** ** Tag-based recommendations: the discover path *)

Lemma filter_notExcluded_nothing (l : list Movie.t) : filter (notExcluded [] []) l = l.
Proof. apply filter_all. intros m _. reflexivity. Qed.

Lemma discover_path (tags : list Tag.t) (liked : list Z) :
  extractGenreIds tags <> [] \/ liked <> [] ->
  ((List.length (extractGenreIds tags) =? 0)%nat && (List.length liked =? 0)%nat) = false.
Proof.
  intros H. destruct (extractGenreIds tags), liked; cbn; try reflexivity.
  destruct H; congruence.
Qed.

(** X20. On the discover path (some genre id, or some liked movie)
    [getTagBasedRecommendations] returns the catalog's answer with the
    disliked and the avoided movies filtered out and nothing else changed:
    the other movies are all kept, in the catalog's order; a failed request
    gives the empty list. *)
Theorem getTagBasedRecommendations_discover_result
    (tags : list Tag.t) (liked disliked : list Z)
    (avoided : option (list Z)) (page : option Z) (c : Catalog) :
  extractGenreIds tags <> [] \/ liked <> [] ->
  exists params : DiscoverParams,
    requests (getTagBasedRecommendations tags liked disliked avoided page c)
      = [GetDiscoverMovie params] /\
    returned (getTagBasedRecommendations tags liked disliked avoided page c)
      = filter (notExcluded disliked (match avoided with Some l => l | None => [] end))
          (match discoverMovie c params with
           | Some results => results
           | None => []
           end).
Proof.
  intros Hpath. unfold getTagBasedRecommendations, returned, requests, outcome, tryCatch.
  rewrite (discover_path tags liked Hpath).
  unfold bind, apiGetDiscoverMovie, ret.
  eexists. 
  destruct (discoverMovie c _) as [results|] eqn:E; cbn [fst snd].
  - split; [reflexivity|]. rewrite E.
    destruct disliked as [|d ds]; destruct avoided as [[|a l]|]; cbn [withDefault];
      try reflexivity; cbn; rewrite filter_notExcluded_nothing; reflexivity.
  - split; [reflexivity|]. rewrite E. reflexivity.
Qed.

Lemma getTagBasedRecommendations_discover_result_witness :
  exists params : DiscoverParams,
    requests (getTagBasedRecommendations [tagGenre28] [] [5] None None catalogWith5)
      = [GetDiscoverMovie params] /\
    returned (getTagBasedRecommendations [tagGenre28] [] [5] None None catalogWith5)
      = filter (notExcluded [5] [])
          (match discoverMovie catalogWith5 params with
           | Some results => results
           | None => []
           end).
Proof.
  apply (getTagBasedRecommendations_discover_result [tagGenre28] [] [5] None None catalogWith5).
  left. discriminate.
Defined.

(** X21. The liked movie ids only choose the path: with two non-empty
    lists of liked ids, [getTagBasedRecommendations] issues the same
    request and returns the same list; which movies are liked never reaches
    the catalog or the result. *)
Theorem getTagBasedRecommendations_liked_ids_unused
    (tags : list Tag.t) (liked liked' disliked : list Z)
    (avoided : option (list Z)) (page : option Z) (c : Catalog) :
  liked <> [] -> liked' <> [] ->
  getTagBasedRecommendations tags liked disliked avoided page c =
  getTagBasedRecommendations tags liked' disliked avoided page c.
Proof.
  intros H H'. unfold getTagBasedRecommendations.
  destruct liked; [contradiction|]. destruct liked'; [contradiction|].
  cbn [List.length Nat.eqb]. rewrite !andb_false_r. reflexivity.
Qed.

Lemma getTagBasedRecommendations_liked_ids_unused_witness :
  getTagBasedRecommendations [tagGenre28] [42] [5] None None catalogWith5 =
  getTagBasedRecommendations [tagGenre28] [7; 5] [5] None None catalogWith5.
Proof.
  apply getTagBasedRecommendations_liked_ids_unused; discriminate.
Defined.

(* ------------------------------------------------------------------ *)
(** ** The genre count, the mood table and the poster URL *)

Lemma totalCount_countGenre (m : NumMap) (k : Z) :
  totalCount (countGenre m k) = totalCount m + 1.
Proof.
  unfold countGenre, getOrZero, mapGet.
  induction m as [|[k' v'] m IH]; [reflexivity|].
  cbn [find fst mapSet totalCount fold_right snd].
  destruct (Z.eqb_spec k' k) as [->|Hne].
  - cbn [option_map snd totalCount fold_right].
    destruct (Z.eqb_spec v' 0); subst; lia.
  - cbn [totalCount fold_right snd]. unfold totalCount in IH. rewrite IH. lia.
Qed.

Lemma totalCount_fold (l : list Z) (m : NumMap) :
  totalCount (fold_left countGenre l m) = totalCount m + Z.of_nat (List.length l).
Proof.
  revert m. induction l as [|k l IH]; intros m; cbn [fold_left List.length].
  - lia.
  - rewrite IH, totalCount_countGenre. lia.
Qed.

(** X22. The genre map counts every listing once: each of its entries
    holds a count of at least 1, and the counts add up to the number of
    genre listings of the input. *)
Theorem countGenres_total (movies : list Movie.t) :
  (forall e : Z * Z, In e (countGenres movies) -> 1 <= snd e) /\
  totalCount (countGenres movies) = Z.of_nat (List.length (genreStream movies)).
Proof.
  split.
  - intros e He. rewrite (countGenres_entry movies e He).
    assert (Hin : In (fst e) (genreStream movies)).
    { apply countGenres_keys_In. apply in_map. exact He. }
    apply (count_occ_In Z.eq_dec) in Hin. unfold occurrences. lia.
  - rewrite countGenres_stream, totalCount_fold. reflexivity.
Qed.

Lemma moodGenreIds_known (mood : Mood) : knownMood mood -> moodGenreIds mood <> [].
Proof.
  unfold knownMood. cbn [In].
  intros [<-|[<-|[<-|[<-|[<-|[<-|[]]]]]]]; discriminate.
Qed.

Lemma join_head_nonempty (x : string) (l : list string) :
  x <> "" -> join "," (x :: l) <> "".
Proof.
  intros Hx. destruct x as [|c x]; [contradiction|].
  destruct l; cbn; discriminate.
Qed.

Lemma intToString_nonempty (z : Z) : intToString z <> "".
Proof.
  destruct (intToString_head z) as [c [t [E _]]]. rewrite E. discriminate.
Qed.

(** X23. [getMoodBasedRecommendations] always issues one discover query
    sorted by descending popularity for the page asked (1 by default), and
    returns the catalog's answer as it is; the genre filter of the query is
    empty exactly when the mood is not one of the six of the table. *)
Theorem getMoodBasedRecommendations_query (mood : Mood) (page : option Z) (c : Catalog) :
  exists genreParam : string,
    let params :=
      {| with_genres := Some genreParam; sort_by := "popularity.desc";
         page := match page with Some n => n | None => 1 end |} in
    requests (getMoodBasedRecommendations mood page c) = [GetDiscoverMovie params] /\
    returned (getMoodBasedRecommendations mood page c) =
      match discoverMovie c params with
      | Some results => results
      | None => []
      end /\
    (genreParam = "" <-> ~ knownMood mood).
Proof.
  exists (join "," (map intToString (moodGenreIds mood))). cbv zeta.
  unfold getMoodBasedRecommendations, returned, requests, outcome, tryCatch, bind,
    apiGetDiscoverMovie, ret.
  split; [|split].
  - destruct page; cbn [withDefault]; destruct (discoverMovie c _); reflexivity.
  - destruct page; cbn [withDefault]; destruct (discoverMovie c _); reflexivity.
  - split.
    + intros E Hk. apply moodGenreIds_known in Hk.
      destruct (moodGenreIds mood) as [|g gs]; [contradiction|].
      cbn [map] in E. revert E. apply join_head_nonempty, intToString_nonempty.
    + intros Hk. rewrite (moodGenreIds_unknown mood Hk). reflexivity.
Qed.

(** X24. A poster path never collides with the placeholder or with
    another path: for a path that is not empty the URL starts with the
    image base URL and is not the placeholder, and for one size two
    different non-empty paths give two different URLs. *)
Theorem getMoviePosterUrl_distinct (path path' : string) (size : option string) :
  path <> "" -> path' <> "" ->
  String.prefix "https://image.tmdb.org/t/p/" (getMoviePosterUrl (Some path) size) = true /\
  getMoviePosterUrl (Some path) size <> getMoviePosterUrl None size /\
  (getMoviePosterUrl (Some path) size = getMoviePosterUrl (Some path') size ->
   path = path').
Proof.
  intros Hp Hp'.
  destruct path as [|c path]; [contradiction|].
  destruct path' as [|c' path']; [contradiction|].
  unfold getMoviePosterUrl. cbv iota.
  split; [|split].
  - cbn [String.append]. cbn. destruct (withDefault "w500" size); reflexivity.
  - cbn. discriminate.
  - intros E. apply append_inj_l in E. apply append_inj_l in E. exact E.
Qed.

Lemma getMoviePosterUrl_distinct_witness :
  getMoviePosterUrl (Some "/stalker.jpg") None <> getMoviePosterUrl None None.
Proof.
  apply (getMoviePosterUrl_distinct "/stalker.jpg" "/heat.jpg" None); discriminate.
Defined.
